(** * Calculadora ABIL: the loss-estimation engine of [src/App.tsx]

    The engine is the body of the [useMemo] callback that builds [result]
    from the five pieces of React state, followed by the projection of
    [result] onto the chart series.

    Numbers.  A JavaScript [number] is modelled by a real number: [Math.log]
    is [ln], [Math.exp] is [exp], [Math.log10 x] is [ln x / ln 10],
    [Math.min] and [Math.max] are [Rmin] and [Rmax].  IEEE-754 rounding,
    infinities and NaN are not modelled.  [ln] is total in Rocq; it agrees
    with [Math.log] on positive arguments only, so the statements about the
    values of the two factors are made on the domain of the inputs, where
    the arguments of the logarithms are positive ([0 <= followUps],
    [0 < responseTime]).

    Rounding.  Statements that lean on exact arithmetic (a strict
    inequality, an if-and-only-if) need not survive binary64 rounding.
    [Double] is the same callback over the kernel's binary64 numbers, with
    the host's [Math.log], [Math.log10] and [Math.exp] as a parameter; it
    is evaluated where rounding decides. *)

From Stdlib Require Import Reals Lra Lia ZArith List String Ascii.
From Stdlib Require Import DecimalString.
From Stdlib Require DecimalPos DecimalZ.
From Stdlib Require Floats.
Import ListNotations.

#[local] Open Scope R_scope.

(** ** Data model *)

(** The string literals of [CalculationResult['followUpStatus']] and
    [CalculationResult['responseStatus']].  Both fields, and the argument of
    [getStatusColor] and [getStatusLabel], range over the same strings. *)
Inductive Status : Set :=
  | CRITICAL
  | WARNING
  | IMPROVE
  | GOOD
  | ADEQUATE
  | EXCELLENT.

(** [interface CalculationResult]. *)
Record CalculationResult : Type := mkResult {
  currentSales : R;
  currentRevenue : R;
  annualRevenue : R;

  followUpStatus : Status;
  followUpLossSales : R;
  followUpLossRevenue : R;
  followUpLossAnnual : R;
  followUpFactor : R;

  responseStatus : Status;
  responseLossSales : R;
  responseLossRevenue : R;
  responseLossAnnual : R;
  responseFactor : R;

  totalLossSales : R;
  totalLossRevenue : R;
  totalLossAnnual : R;
  efficiency : R
}.

(** The five [useState] cells the callback closes over. *)
Record Inputs : Type := mkInputs {
  leads : R;
  conversion : R;
  ticket : R;
  followUps : R;
  responseTime : R
}.

(** [handleReset] and the initial values of the [useState] calls. *)
Definition defaults : Inputs :=
  {| leads := 100; conversion := 10; ticket := 5000;
     followUps := 3; responseTime := 60 |}.

(** ** The engine *)

Module Engine.

(** [Math.log10]. *)
Definition log10 (x : R) : R := ln x / ln 10.

(** Lines 293-295: the clamped logarithmic decay. *)
Definition safeFollowUps (followUps : R) : R := Rmin followUps 10.

Definition rawLossPercentage (followUps : R) : R :=
  1 - (ln (safeFollowUps followUps + 1) / ln 11).

Definition followUpLossFactor (followUps : R) : R :=
  Rmax 0 (rawLossPercentage followUps).

(** Lines 297-300: the cascade on the follow-up factor. *)
Definition followUpStatusOf (followUpLossFactor : R) : Status :=
  if Rgt_dec followUpLossFactor 0.60 then CRITICAL
  else if Rge_dec followUpLossFactor 0.30 then WARNING
  else ADEQUATE.

(** Lines 309-312: the sigmoid over log-scaled minutes. *)
Definition k : R := 2.5.
Definition midpoint : R := 1.78.

Definition timeLog (responseTime : R) : R := log10 (responseTime + 1).

Definition responseTimeLossFactor (responseTime : R) : R :=
  1 / (1 + exp (- k * (timeLog responseTime - midpoint))).

(** Lines 315-324: the cascade on raw minutes. *)
Definition responseStatusOf (responseTime : R) : Status :=
  if Rle_dec responseTime 5 then EXCELLENT
  else if Rle_dec responseTime 30 then GOOD
  else if Rle_dec responseTime 60 then WARNING
  else CRITICAL.

(** Lines 285-360: the [useMemo] callback, binding for binding. *)
Definition result (i : Inputs) : CalculationResult :=
  let leads := leads i in
  let conversion := conversion i in
  let ticket := ticket i in
  let followUps := followUps i in
  let responseTime := responseTime i in

  let currentSales := leads * (conversion / 100) in
  let currentRevenue := currentSales * ticket in
  let annualRevenue := currentRevenue * 12 in

  let nonConvertedLeads := leads - currentSales in

  let followUpLossFactor := followUpLossFactor followUps in
  let followUpStatus := followUpStatusOf followUpLossFactor in

  let maxFollowUpRecoverable := nonConvertedLeads * 0.50 in
  let followUpRecoverableLeads := maxFollowUpRecoverable * followUpLossFactor in
  let followUpLossSales := followUpRecoverableLeads * 0.12 in
  let followUpLossRevenue := followUpLossSales * ticket in

  let responseTimeLossFactor := responseTimeLossFactor responseTime in
  let responseStatus := responseStatusOf responseTime in

  let maxResponseRecoverable := nonConvertedLeads * 0.60 in
  let responseRecoverableLeads := maxResponseRecoverable * responseTimeLossFactor in
  let responseLossSales := responseRecoverableLeads * 0.15 in
  let responseLossRevenue := responseLossSales * ticket in

  let totalLossSales := followUpLossSales + responseLossSales in
  let totalLossRevenue := followUpLossRevenue + responseLossRevenue in

  let totalPotentialSales := currentSales + totalLossSales in
  let efficiency :=
    if Rgt_dec totalPotentialSales 0
    then (currentSales / totalPotentialSales) * 100
    else 100 in

  {| currentSales := currentSales;
     currentRevenue := currentRevenue;
     annualRevenue := annualRevenue;

     followUpStatus := followUpStatus;
     followUpLossSales := followUpLossSales;
     followUpLossRevenue := followUpLossRevenue;
     followUpLossAnnual := followUpLossRevenue * 12;
     followUpFactor := followUpLossFactor;

     responseStatus := responseStatus;
     responseLossSales := responseLossSales;
     responseLossRevenue := responseLossRevenue;
     responseLossAnnual := responseLossRevenue * 12;
     responseFactor := responseTimeLossFactor;

     totalLossSales := totalLossSales;
     totalLossRevenue := totalLossRevenue;
     totalLossAnnual := totalLossRevenue * 12;
     efficiency := efficiency |}.

(** The pool both loss models draw from (line 290), as a function of the
    inputs; [result] binds the same expression locally. *)
Definition nonConvertedLeads (i : Inputs) : R :=
  leads i - leads i * (conversion i / 100).

End Engine.

(** ** The chart series (lines 381-384) *)

Module Chart.

Definition ORANGE : string := "#FF6600".
Definition ORANGE_LIGHT : string := "#FF8533".

Record Slice : Type := mkSlice {
  name : string;
  value : R;
  color : string
}.

Definition positive (d : Slice) : bool :=
  if Rgt_dec (value d) 0 then true else false.

Definition pieData (result : CalculationResult) : list Slice :=
  filter positive
    [ {| name := "Perda por Follow-up";
         value := followUpLossAnnual result;
         color := ORANGE_LIGHT |};
      {| name := "Perda por Tempo";
         value := responseLossAnnual result;
         color := ORANGE |} ].

End Chart.

(** ** The earlier revision of the response cascade

    The second revision of [App.tsx] kept in the repository classifies the
    response on the computed factor instead of on raw minutes; everything
    else in its callback is the same as in [Engine.result]. *)

Module Legacy.

Definition responseStatusOf (responseTimeLossFactor : R) : Status :=
  if Rlt_dec responseTimeLossFactor 0.15 then EXCELLENT
  else if Rlt_dec responseTimeLossFactor 0.35 then GOOD
  else if Rlt_dec responseTimeLossFactor 0.60 then IMPROVE
  else if Rlt_dec responseTimeLossFactor 0.85 then WARNING
  else CRITICAL.

End Legacy.

(** ** The callback in binary64

    The [useMemo] callback once more, over the kernel's binary64 numbers:
    [+], [-], [*], [/] and the comparisons are the IEEE-754 operations the
    source runs.  What the host computes for [Math.log], [Math.log10] and
    [Math.exp] is left open as [MathLib]. *)

Module Double.

Import PrimFloat.

#[local] Open Scope float_scope.
#[local] Set Warnings "-inexact-float".

Record MathLib : Set := mkMathLib {
  Math_log : float -> float;
  Math_log10 : float -> float;
  Math_exp : float -> float
}.

Definition is_negzero (x : float) : bool :=
  match classify x with
  | FloatClass.NZero => true
  | _ => false
  end.

(** [Math.min] and [Math.max]: NaN if either argument is, and [-0] below
    [+0]. *)
Definition Math_min (x y : float) : float :=
  if (is_nan x || is_nan y)%bool then nan
  else if x <? y then x
  else if y <? x then y
  else if is_negzero x then x else y.

Definition Math_max (x y : float) : float :=
  if (is_nan x || is_nan y)%bool then nan
  else if x <? y then y
  else if y <? x then x
  else if is_negzero x then y else x.

Record Inputs : Set := mkInputs {
  leads : float;
  conversion : float;
  ticket : float;
  followUps : float;
  responseTime : float
}.

Record CalculationResult : Set := mkResult {
  currentSales : float;
  currentRevenue : float;
  annualRevenue : float;

  followUpStatus : Status;
  followUpLossSales : float;
  followUpLossRevenue : float;
  followUpLossAnnual : float;
  followUpFactor : float;

  responseStatus : Status;
  responseLossSales : float;
  responseLossRevenue : float;
  responseLossAnnual : float;
  responseFactor : float;

  totalLossSales : float;
  totalLossRevenue : float;
  totalLossAnnual : float;
  efficiency : float
}.

(** Lines 285-360. *)
Definition result (M : MathLib) (i : Inputs) : CalculationResult :=
  let leads := leads i in
  let conversion := conversion i in
  let ticket := ticket i in
  let followUps := followUps i in
  let responseTime := responseTime i in

  let currentSales := leads * (conversion / 100) in
  let currentRevenue := currentSales * ticket in
  let annualRevenue := currentRevenue * 12 in

  let nonConvertedLeads := leads - currentSales in

  let safeFollowUps := Math_min followUps 10 in
  let rawLossPercentage :=
    1 - (Math_log M (safeFollowUps + 1) / Math_log M 11) in
  let followUpLossFactor := Math_max 0 rawLossPercentage in

  let followUpStatus :=
    if 0.60 <? followUpLossFactor then CRITICAL
    else if 0.30 <=? followUpLossFactor then WARNING
    else ADEQUATE in

  let maxFollowUpRecoverable := nonConvertedLeads * 0.50 in
  let followUpRecoverableLeads := maxFollowUpRecoverable * followUpLossFactor in
  let followUpLossSales := followUpRecoverableLeads * 0.12 in
  let followUpLossRevenue := followUpLossSales * ticket in

  let k := 2.5 in
  let midpoint := 1.78 in
  let timeLog := Math_log10 M (responseTime + 1) in
  let responseTimeLossFactor :=
    1 / (1 + Math_exp M (- k * (timeLog - midpoint))) in

  let responseStatus :=
    if responseTime <=? 5 then EXCELLENT
    else if responseTime <=? 30 then GOOD
    else if responseTime <=? 60 then WARNING
    else CRITICAL in

  let maxResponseRecoverable := nonConvertedLeads * 0.60 in
  let responseRecoverableLeads :=
    maxResponseRecoverable * responseTimeLossFactor in
  let responseLossSales := responseRecoverableLeads * 0.15 in
  let responseLossRevenue := responseLossSales * ticket in

  let totalLossSales := followUpLossSales + responseLossSales in
  let totalLossRevenue := followUpLossRevenue + responseLossRevenue in

  let totalPotentialSales := currentSales + totalLossSales in
  let efficiency :=
    if 0 <? totalPotentialSales
    then (currentSales / totalPotentialSales) * 100
    else 100 in

  {| currentSales := currentSales;
     currentRevenue := currentRevenue;
     annualRevenue := annualRevenue;

     followUpStatus := followUpStatus;
     followUpLossSales := followUpLossSales;
     followUpLossRevenue := followUpLossRevenue;
     followUpLossAnnual := followUpLossRevenue * 12;
     followUpFactor := followUpLossFactor;

     responseStatus := responseStatus;
     responseLossSales := responseLossSales;
     responseLossRevenue := responseLossRevenue;
     responseLossAnnual := responseLossRevenue * 12;
     responseFactor := responseTimeLossFactor;

     totalLossSales := totalLossSales;
     totalLossRevenue := totalLossRevenue;
     totalLossAnnual := totalLossRevenue * 12;
     efficiency := efficiency |}.

(** The defaults with another response time. *)
Definition withResponseTime (t : float) : Inputs :=
  {| leads := 100; conversion := 10; ticket := 5000;
     followUps := 3; responseTime := t |}.

(** The largest finite number, the smallest positive one, and the number
    next above 100. *)
Definition MAX_VALUE : float := 0x1.fffffffffffffp+1023.

End Double.

(** ** Certified lower bounds on the exponential

    Fixed-point integers at [scale] bound [exp] from below through
    [1 + y <= exp y] followed by [n] squarings rounded down; the numeric
    figures of the default scenario are enclosed with them. *)

Module Enclosure.

Definition scale : Z := (10 ^ 30)%Z.

Fixpoint squarings (n : nat) (m : Z) : Z :=
  match n with
  | O => m
  | S n' => squarings n' (m * m / scale)
  end.

(** [exp_floor n p q / scale <= exp (p / q)]. *)
Definition exp_floor (n : nat) (p q : Z) : Z :=
  squarings n (scale + scale * p / (q * 2 ^ Z.of_nat n)).

Definition base_ok (n : nat) (p q : Z) : bool :=
  (0 <=? scale + scale * p / (q * 2 ^ Z.of_nat n))%Z.

End Enclosure.

(** ** [formatTime] (lines 75-80)

    [minutes] is an integer, as the slider (step 1) delivers it; the
    template literal prints an integer in decimal, with a leading minus
    sign when negative.  For [minutes >= 60] both operands are positive, so
    [Math.floor (minutes / 60)] and [minutes % 60] are [/] and [mod]. *)

Module Format.

#[local] Open Scope Z_scope.

Definition show (n : Z) : string := NilZero.string_of_int (Z.to_int n).

Definition formatTime (minutes : Z) : string :=
  if minutes <? 60 then (show minutes ++ " min")%string
  else
    let hours := minutes / 60 in
    let mins := minutes mod 60 in
    if mins >? 0 then (show hours ++ "h " ++ show mins ++ "min")%string
    else (show hours ++ "h")%string.

End Format.

(** ** The input widgets (lines 95-272) *)

Module Widgets.

(** [SliderInput]: how far the fill and the thumb sit along the track. *)
Definition percentage (value min max : R) : R :=
  ((value - min) / (max - min)) * 100.

Definition safePercentage (value min max : R) : R :=
  Rmin 100 (Rmax 0 (percentage value min max)).

(** [handleInputChange] of both widgets, on the number typed. *)
Definition handleInputChange (max val : R) : R :=
  if Rgt_dec val max then max else val.

(** [TimeSliderInput]. *)
Definition MAX_MINUTES : R := 180.

Definition timePercentage (value : R) : R :=
  ((value - 1) / (MAX_MINUTES - 1)) * 100.

Definition timeSafePercentage (value : R) : R :=
  Rmin 100 (Rmax 0 (timePercentage value)).

Record Marker : Type := mkMarker {
  val : R;
  label : string;
  markerColor : string
}.

Definition markers : list Marker :=
  [ {| val := 5; label := "5m"; markerColor := "bg-green-500" |};
    {| val := 30; label := "30m"; markerColor := "bg-yellow-500" |};
    {| val := 60; label := "1h"; markerColor := "bg-orange-500" |};
    {| val := 180; label := "3h"; markerColor := "bg-red-500" |} ].

(** [left] of a marker, in percent of the track. *)
Definition markerLeft (m : Marker) : R := (val m / MAX_MINUTES) * 100.

(** The widths, in percent, of the green, yellow and orange zones; the red
    zone grows into what is left of the track. *)
Definition zoneWidths : list R :=
  [ (5 / MAX_MINUTES) * 100; (25 / MAX_MINUTES) * 100; (30 / MAX_MINUTES) * 100 ].

End Widgets.

(** ** The view: state, status styles and bar series *)

Module View.

(** The string a status is in the source. *)
Definition literal (s : Status) : string :=
  match s with
  | CRITICAL => "CRITICAL"
  | WARNING => "WARNING"
  | IMPROVE => "IMPROVE"
  | GOOD => "GOOD"
  | ADEQUATE => "ADEQUATE"
  | EXCELLENT => "EXCELLENT"
  end.

(** Lines 387-397. *)
Definition getStatusColor (status : string) : string :=
  if String.eqb status "CRITICAL" then "bg-red-600"
  else if String.eqb status "WARNING" then "bg-orange-500"
  else if String.eqb status "IMPROVE" then "bg-yellow-500"
  else if String.eqb status "GOOD" then "bg-yellow-500"
  else if String.eqb status "ADEQUATE" then "bg-emerald-700"
  else if String.eqb status "EXCELLENT" then "bg-emerald-700"
  else "bg-gray-500".

(** Lines 399-409. *)
Definition getStatusLabel (status : string) : string :=
  if String.eqb status "CRITICAL" then "CRÍTICO"
  else if String.eqb status "WARNING" then "RUIM"
  else if String.eqb status "IMPROVE" then "MELHORAR"
  else if String.eqb status "GOOD" then "ATENÇÃO"
  else if String.eqb status "ADEQUATE" then "ADEQUADO"
  else if String.eqb status "EXCELLENT" then "ÓTIMO"
  else EmptyString.

(** Lines 363-379. *)
Definition BLUE : string := "#003366".

Record Bar : Type := mkBar {
  barName : string;
  barValue : R;
  fill : string
}.

Definition barData (result : CalculationResult) : list Bar :=
  [ {| barName := "Vendas Atuais";
       barValue := currentRevenue result;
       fill := BLUE |};
    {| barName := "Perda (Follow-up)";
       barValue := followUpLossRevenue result;
       fill := Chart.ORANGE_LIGHT |};
    {| barName := "Perda (Tempo)";
       barValue := responseLossRevenue result;
       fill := Chart.ORANGE |} ].

(** The five inputs of the form and the bounds their widgets are given
    (lines 453-498); the response time is bounded by [TimeSliderInput]. *)
Inductive Field : Set :=
  | Leads
  | Conversion
  | Ticket
  | FollowUps
  | ResponseTime.

Definition fieldMin (f : Field) : R :=
  match f with
  | Leads => 10
  | Conversion => 0
  | Ticket => 50
  | FollowUps => 0
  | ResponseTime => 1
  end.

Definition fieldMax (f : Field) : R :=
  match f with
  | Leads => 5000
  | Conversion => 100
  | Ticket => 50000
  | FollowUps => 10
  | ResponseTime => Widgets.MAX_MINUTES
  end.

Definition getField (f : Field) (i : Inputs) : R :=
  match f with
  | Leads => leads i
  | Conversion => conversion i
  | Ticket => ticket i
  | FollowUps => followUps i
  | ResponseTime => responseTime i
  end.

(** The [useState] setter of a field. *)
Definition setField (f : Field) (v : R) (i : Inputs) : Inputs :=
  match f with
  | Leads => {| leads := v; conversion := conversion i; ticket := ticket i;
                followUps := followUps i; responseTime := responseTime i |}
  | Conversion => {| leads := leads i; conversion := v; ticket := ticket i;
                     followUps := followUps i; responseTime := responseTime i |}
  | Ticket => {| leads := leads i; conversion := conversion i; ticket := v;
                 followUps := followUps i; responseTime := responseTime i |}
  | FollowUps => {| leads := leads i; conversion := conversion i;
                    ticket := ticket i; followUps := v;
                    responseTime := responseTime i |}
  | ResponseTime => {| leads := leads i; conversion := conversion i;
                       ticket := ticket i; followUps := followUps i;
                       responseTime := v |}
  end.

(** What the user can do: drag the range input of a field to [v], type [v]
    into its number input, or press the reset button. *)
Inductive Event : Type :=
  | Slide (f : Field) (v : R)
  | Typed (f : Field) (v : R)
  | Reset.

(** The range input calls the setter directly, the number input goes
    through [handleInputChange], [handleReset] restores the defaults. *)
Definition step (i : Inputs) (e : Event) : Inputs :=
  match e with
  | Slide f v => setField f v i
  | Typed f v => setField f (Widgets.handleInputChange (fieldMax f) v) i
  | Reset => defaults
  end.

Definition run (events : list Event) : Inputs := fold_left step events defaults.

End View.

(** ** Certificates for the response factor at a whole number of minutes

    [factor_lt_check n m a cn cd] evaluates to [true] only if
    [responseTimeLossFactor m < cn / cd], given the upper bound [a / 10^8]
    on [ln (m + 1)]; [factor_gt_check] is the mirror image, from a lower
    bound.  Both go through [Enclosure.exp_floor] with [n] squarings. *)

Module Certificate.

Import Enclosure.

#[local] Open Scope Z_scope.

Definition digits : Z := 10 ^ 8.

(** [ln10_lo / digits < ln 10 < ln10_hi / digits]. *)
Definition ln10_lo : Z := 230258509.
Definition ln10_hi : Z := 230258510.

(** Numerator and denominator of [- 2.5 * (a / digits / (l / digits) - 1.78)]. *)
Definition exponent_num (a l : Z) : Z := 445 * digits * l - 250 * a * digits.
Definition exponent_den (l : Z) : Z := 100 * digits * l.

Definition factor_lt_check (n : nat) (m a cn cd : Z) : bool :=
  let p := exponent_num a ln10_lo in
  let q := exponent_den ln10_lo in
  (0 <? m + 1) && (0 <? cd)
  && base_ok n a digits
  && ((m + 1) * scale <? 1 * exp_floor n a digits)
  && base_ok n p q
  && (scale * cd <=? cn * (scale + exp_floor n p q)).

Definition factor_gt_check (n : nat) (m a cn cd : Z) : bool :=
  let p := exponent_num a ln10_hi in
  let q := exponent_den ln10_hi in
  (0 <? m + 1) && (0 <? cd) && (0 <? a)
  && base_ok n (- a) digits
  && (1 * scale <? (m + 1) * exp_floor n (- a) digits)
  && base_ok n (- p) q
  && (0 <? exp_floor n (- p) q)
  && (cn * (exp_floor n (- p) q + scale) <=? cd * exp_floor n (- p) q).

End Certificate.

(** ** Orderings and shorthands used in the statements *)

(** How bad a label is: the order in which each cascade hands its labels
    out, coloured green to red by [getStatusColor]. *)
Definition severity (s : Status) : nat :=
  match s with
  | EXCELLENT | ADEQUATE => 0
  | GOOD => 1
  | IMPROVE => 2
  | WARNING => 3
  | CRITICAL => 4
  end.

(** [actual] is within the relative tolerance [rel] of the [quoted] figure. *)
Definition within (rel quoted actual : R) : Prop :=
  Rabs (actual - quoted) <= rel * Rabs quoted.

(** The slice of the composition series that carries the response loss. *)
Definition responseSlice (result : CalculationResult) : Chart.Slice :=
  {| Chart.name := "Perda por Tempo";
     Chart.value := responseLossAnnual result;
     Chart.color := Chart.ORANGE |}.

(** Where the first [n] zones of the time slider end, in percent. *)
Definition zoneEnd (n : nat) : R :=
  fold_right Rplus 0 (firstn n Widgets.zoneWidths).

(** The inputs the form is meant for: nothing negative and a conversion
    rate of at most 100 %. *)
Definition inDomain (i : Inputs) : Prop :=
  0 <= leads i /\ 0 <= conversion i <= 100 /\ 0 <= ticket i
  /\ 0 <= followUps i /\ 0 <= responseTime i.

(** A range input only reports values inside its range. *)
Definition admissible (e : View.Event) : Prop :=
  match e with
  | View.Slide f v => View.fieldMin f <= v <= View.fieldMax f
  | View.Typed f v => True
  | View.Reset => True
  end.

(** No negative number is typed into a number input. *)
Definition nonnegative (e : View.Event) : Prop :=
  match e with
  | View.Typed f v => 0 <= v
  | _ => True
  end.

(** [Number.MAX_SAFE_INTEGER]: up to it every integer is a JavaScript
    number and prints in plain decimal. *)
Definition safeInteger (n : Z) : Prop := (Z.abs n <= 9007199254740991)%Z.

(** The characters a printed integer is made of. *)
Definition numeric (c : ascii) : bool :=
  (Ascii.eqb c "-"
   || (48 <=? nat_of_ascii c)%nat && (nat_of_ascii c <=? 57)%nat)%bool.

(** * Properties of the two decay curves *)

Section Curves.

Import Engine.

Lemma ln10_pos : 0 < ln 10.
Proof. rewrite <- ln_1. apply ln_increasing; lra. Qed.

Lemma ln11_pos : 0 < ln 11.
Proof. rewrite <- ln_1. apply ln_increasing; lra. Qed.

Lemma ln_nondecreasing (x y : R) : 0 < x -> x <= y -> ln x <= ln y.
Proof.
  intros Hx [Hlt | ->]; [left; now apply ln_increasing | right; reflexivity].
Qed.

Lemma log10_increasing (x y : R) : 0 < x -> x < y -> log10 x < log10 y.
Proof.
  intros Hx Hxy. unfold log10.
  apply Rmult_lt_compat_r; [apply Rinv_0_lt_compat, ln10_pos|].
  now apply ln_increasing.
Qed.

(** The sigmoid [1 / (1 + exp (- k * (t - midpoint)))] of the time
    logarithm [t]. *)
Lemma sigmoid_bounds (t : R) :
  0 < 1 / (1 + exp (- k * (t - midpoint))) < 1.
Proof.
  pose proof (exp_pos (- k * (t - midpoint))) as He.
  split.
  - apply Rdiv_lt_0_compat; lra.
  - apply Rmult_lt_reg_r with (1 + exp (- k * (t - midpoint))); [lra|].
    unfold Rdiv. rewrite Rmult_assoc, Rinv_l; lra.
Qed.

Lemma sigmoid_increasing (s t : R) :
  s < t ->
  1 / (1 + exp (- k * (s - midpoint))) < 1 / (1 + exp (- k * (t - midpoint))).
Proof.
  intros Hst.
  pose proof (exp_pos (- k * (s - midpoint))) as Hs.
  pose proof (exp_pos (- k * (t - midpoint))) as Ht.
  assert (He : exp (- k * (t - midpoint)) < exp (- k * (s - midpoint))).
  { apply exp_increasing. unfold k. lra. }
  unfold Rdiv. rewrite !Rmult_1_l.
  apply Rinv_lt_contravar; [apply Rmult_lt_0_compat; lra | lra].
Qed.

Lemma responseTimeLossFactor_bounds (responseTime : R) :
  0 < responseTimeLossFactor responseTime < 1.
Proof. apply sigmoid_bounds. Qed.

Lemma responseTimeLossFactor_increasing (x y : R) :
  0 < x + 1 -> x < y ->
  responseTimeLossFactor x < responseTimeLossFactor y.
Proof.
  intros Hx Hxy. apply sigmoid_increasing.
  unfold timeLog. apply log10_increasing; lra.
Qed.

Lemma followUpLossFactor_nonneg (followUps : R) :
  0 <= followUpLossFactor followUps.
Proof. apply Rmax_l. Qed.

Lemma rawLossPercentage_le_1 (followUps : R) :
  0 <= followUps -> rawLossPercentage followUps <= 1.
Proof.
  intros H. unfold rawLossPercentage, safeFollowUps.
  assert (Hm : 0 <= Rmin followUps 10) by (apply Rmin_glb; lra).
  assert (Hl : 0 <= ln (Rmin followUps 10 + 1)).
  { rewrite <- ln_1. apply ln_nondecreasing; lra. }
  pose proof ln11_pos as H11.
  assert (0 <= ln (Rmin followUps 10 + 1) / ln 11).
  { apply Rmult_le_pos; [exact Hl | left; now apply Rinv_0_lt_compat]. }
  lra.
Qed.

Lemma followUpLossFactor_le_1 (followUps : R) :
  0 <= followUps -> followUpLossFactor followUps <= 1.
Proof.
  intros H. unfold followUpLossFactor.
  apply Rmax_lub; [lra | now apply rawLossPercentage_le_1].
Qed.

Lemma followUpLossFactor_at_0 : followUpLossFactor 0 = 1.
Proof.
  unfold followUpLossFactor, rawLossPercentage, safeFollowUps.
  rewrite Rmin_left by lra.
  replace (0 + 1) with 1 by ring. rewrite ln_1.
  unfold Rdiv. rewrite Rmult_0_l, Rminus_0_r.
  apply Rmax_right. lra.
Qed.

Lemma followUpLossFactor_from_10 (followUps : R) :
  10 <= followUps -> followUpLossFactor followUps = 0.
Proof.
  intros H. unfold followUpLossFactor, rawLossPercentage, safeFollowUps.
  rewrite Rmin_right by exact H.
  replace (10 + 1) with 11 by ring.
  pose proof ln11_pos as H11.
  replace (1 - ln 11 / ln 11) with 0 by (field; lra).
  apply Rmax_left. lra.
Qed.

Lemma rawLossPercentage_antitone (x y : R) :
  0 <= x -> x <= y -> rawLossPercentage y <= rawLossPercentage x.
Proof.
  intros Hx Hxy. unfold rawLossPercentage, safeFollowUps.
  assert (Hmin : Rmin x 10 <= Rmin y 10) by now apply Rle_min_compat_r.
  assert (H0 : 0 <= Rmin x 10) by (apply Rmin_glb; lra).
  assert (Hln : ln (Rmin x 10 + 1) <= ln (Rmin y 10 + 1))
    by (apply ln_nondecreasing; lra).
  pose proof ln11_pos as H11.
  assert (ln (Rmin x 10 + 1) / ln 11 <= ln (Rmin y 10 + 1) / ln 11).
  { apply Rmult_le_compat_r; [left; now apply Rinv_0_lt_compat | exact Hln]. }
  lra.
Qed.

Lemma followUpLossFactor_antitone (x y : R) :
  0 <= x -> x <= y -> followUpLossFactor y <= followUpLossFactor x.
Proof.
  intros Hx Hxy. unfold followUpLossFactor.
  apply Rle_max_compat_l. now apply rawLossPercentage_antitone.
Qed.

End Curves.

(** * Soundness of the enclosures *)

Section EnclosureFacts.

Import Enclosure.

Lemma scale_pos : 0 < IZR scale.
Proof. apply IZR_lt. reflexivity. Qed.

Lemma squarings_sound (n : nat) :
  forall (m : Z) (y : R),
    (0 <= m)%Z -> IZR m / IZR scale <= exp y ->
    IZR (squarings n m) / IZR scale <= exp (2 ^ n * y).
Proof.
  induction n as [|n IH]; intros m y Hm Hle; simpl.
  - now rewrite Rmult_1_l.
  - replace (2 * 2 ^ n * y) with (2 ^ n * (2 * y)) by ring.
    apply IH.
    + apply Z.div_pos; [nia | reflexivity].
    + pose proof scale_pos as HD.
      assert (Hq : IZR (m * m / scale) * IZR scale <= IZR m * IZR m).
      { rewrite <- !mult_IZR. apply IZR_le.
        rewrite Z.mul_comm. apply Z.mul_div_le. reflexivity. }
      assert (H0 : 0 <= IZR m / IZR scale).
      { apply Rmult_le_pos; [now apply IZR_le | left; now apply Rinv_0_lt_compat]. }
      replace (2 * y) with (y + y) by ring. rewrite exp_plus.
      apply Rle_trans with (IZR m / IZR scale * (IZR m / IZR scale)).
      * apply Rmult_le_reg_r with (IZR scale * IZR scale); [nra|].
        field_simplify; [|lra|lra]. nra.
      * apply Rmult_le_compat; assumption.
Qed.

Lemma exp_floor_sound (n : nat) (p q : Z) :
  (0 < q)%Z -> base_ok n p q = true ->
  IZR (exp_floor n p q) / IZR scale <= exp (IZR p / IZR q).
Proof.
  intros Hq Hb. unfold base_ok in Hb. apply Z.leb_le in Hb.
  assert (H2 : (0 < 2 ^ Z.of_nat n)%Z) by (apply Z.pow_pos_nonneg; lia).
  assert (H2R : IZR (2 ^ Z.of_nat n) = 2 ^ n).
  { rewrite <- pow_IZR. reflexivity. }
  assert (Hp2 : 0 < 2 ^ n) by (apply pow_lt; lra).
  assert (HqR : 0 < IZR q) by now apply IZR_lt.
  pose proof scale_pos as HD.
  replace (IZR p / IZR q) with (2 ^ n * (IZR p / IZR q / 2 ^ n)) by (field; lra).
  apply squarings_sound; [exact Hb|].
  eapply Rle_trans; [|apply exp_ineq1_le].
  rewrite plus_IZR.
  assert (Hd : IZR (scale * p / (q * 2 ^ Z.of_nat n)) * (IZR q * 2 ^ n)
               <= IZR scale * IZR p).
  { rewrite <- H2R, <- !mult_IZR. apply IZR_le.
    rewrite Z.mul_comm. apply Z.mul_div_le. nia. }
  set (a := IZR (scale * p / (q * 2 ^ Z.of_nat n))) in *.
  assert (Hpos : 0 < IZR q * 2 ^ n) by now apply Rmult_lt_0_compat.
  replace ((IZR scale + a) / IZR scale) with (1 + a / IZR scale) by (field; lra).
  replace (IZR p / IZR q / 2 ^ n)
    with (IZR scale * IZR p / (IZR q * 2 ^ n) / IZR scale) by (field; lra).
  apply Rplus_le_compat_l, Rmult_le_compat_r;
    [left; now apply Rinv_0_lt_compat|].
  apply Rmult_le_reg_r with (IZR q * 2 ^ n); [exact Hpos|].
  replace (IZR scale * IZR p / (IZR q * 2 ^ n) * (IZR q * 2 ^ n))
    with (IZR scale * IZR p) by (field; lra).
  exact Hd.
Qed.


Lemma exp_above (n : nat) (p q c d : Z) :
  (0 < q)%Z -> (0 < d)%Z -> base_ok n p q = true ->
  (c * scale < d * exp_floor n p q)%Z ->
  IZR c / IZR d < exp (IZR p / IZR q).
Proof.
  intros Hq Hd Hb Hlt.
  eapply Rlt_le_trans; [|apply (exp_floor_sound n p q Hq Hb)].
  pose proof scale_pos as HD.
  assert (HdR : 0 < IZR d) by now apply IZR_lt.
  apply IZR_lt in Hlt. rewrite !mult_IZR in Hlt.
  apply Rmult_lt_reg_r with (IZR d * IZR scale); [nra|].
  replace (IZR c / IZR d * (IZR d * IZR scale)) with (IZR c * IZR scale)
    by (field; lra).
  replace (IZR (exp_floor n p q) / IZR scale * (IZR d * IZR scale))
    with (IZR d * IZR (exp_floor n p q)) by (field; lra).
  exact Hlt.
Qed.

Lemma exp_below (n : nat) (p q c d : Z) :
  (0 < q)%Z -> (0 < c)%Z -> (0 < d)%Z -> base_ok n (- p) q = true ->
  (d * scale < c * exp_floor n (- p) q)%Z ->
  exp (IZR p / IZR q) < IZR c / IZR d.
Proof.
  intros Hq Hc Hd Hb Hlt.
  pose proof (exp_above n (- p) q d c Hq Hc Hb Hlt) as H.
  assert (HcR : 0 < IZR c) by now apply IZR_lt.
  assert (HdR : 0 < IZR d) by now apply IZR_lt.
  assert (HqR : 0 < IZR q) by now apply IZR_lt.
  replace (IZR (- p) / IZR q) with (- (IZR p / IZR q)) in H
    by (rewrite opp_IZR; field; lra).
  rewrite exp_Ropp in H.
  pose proof (exp_pos (IZR p / IZR q)) as He.
  replace (IZR c / IZR d) with (/ (IZR d / IZR c)) by (field; lra).
  rewrite <- (Rinv_inv (exp (IZR p / IZR q))).
  apply Rinv_lt_contravar; [|exact H].
  apply Rmult_lt_0_compat; [|now apply Rinv_0_lt_compat].
  apply Rmult_lt_0_compat; [exact HdR | now apply Rinv_0_lt_compat].
Qed.

Lemma ln_above (n : nat) (p q c d : Z) :
  (0 < q)%Z -> (0 < c)%Z -> (0 < d)%Z -> base_ok n (- p) q = true ->
  (d * scale < c * exp_floor n (- p) q)%Z ->
  IZR p / IZR q < ln (IZR c / IZR d).
Proof.
  intros Hq Hc Hd Hb Hlt.
  apply exp_lt_inv. rewrite exp_ln.
  - now apply exp_below with n.
  - apply Rmult_lt_0_compat; [now apply IZR_lt|].
    apply Rinv_0_lt_compat. now apply IZR_lt.
Qed.

Lemma ln_below (n : nat) (p q c d : Z) :
  (0 < q)%Z -> (0 < c)%Z -> (0 < d)%Z -> base_ok n p q = true ->
  (c * scale < d * exp_floor n p q)%Z ->
  ln (IZR c / IZR d) < IZR p / IZR q.
Proof.
  intros Hq Hc Hd Hb Hlt.
  apply exp_lt_inv. rewrite exp_ln.
  - now apply exp_above with n.
  - apply Rmult_lt_0_compat; [now apply IZR_lt|].
    apply Rinv_0_lt_compat. now apply IZR_lt.
Qed.

Lemma ln_int_above (n : nat) (p q c : Z) :
  (0 < q)%Z -> (0 < c)%Z -> base_ok n (- p) q = true ->
  (1 * scale < c * exp_floor n (- p) q)%Z ->
  IZR p / IZR q < ln (IZR c).
Proof.
  intros Hq Hc Hb Hlt. rewrite <- (Rdiv_1_r (IZR c)).
  now apply ln_above with n.
Qed.

Lemma ln_int_below (n : nat) (p q c : Z) :
  (0 < q)%Z -> (0 < c)%Z -> base_ok n p q = true ->
  (c * scale < 1 * exp_floor n p q)%Z ->
  ln (IZR c) < IZR p / IZR q.
Proof.
  intros Hq Hc Hb Hlt. rewrite <- (Rdiv_1_r (IZR c)).
  now apply ln_below with n.
Qed.

End EnclosureFacts.

(** * Enclosures of the constants of the default scenario *)

Section Numerics.

Import Engine Enclosure.

Lemma ln4_enclosure : 1.38629436 < ln 4 < 1.38629437.
Proof.
  split.
  - apply (ln_int_above 45 138629436 100000000 4); reflexivity.
  - apply (ln_int_below 45 138629437 100000000 4); reflexivity.
Qed.

Lemma ln11_enclosure : 2.39789527 < ln 11 < 2.39789528.
Proof.
  split.
  - apply (ln_int_above 45 239789527 100000000 11); reflexivity.
  - apply (ln_int_below 45 239789528 100000000 11); reflexivity.
Qed.

Lemma ln61_enclosure : 4.11087386 < ln 61 < 4.11087387.
Proof.
  split.
  - apply (ln_int_above 45 411087386 100000000 61); reflexivity.
  - apply (ln_int_below 45 411087387 100000000 61); reflexivity.
Qed.

Lemma ln10_enclosure : 2.30258509 < ln 10 < 2.30258510.
Proof.
  split.
  - apply (ln_int_above 45 230258509 100000000 10); reflexivity.
  - apply (ln_int_below 45 230258510 100000000 10); reflexivity.
Qed.

(** [lo < a / b < hi] from enclosures of a positive [a] and [b]. *)
Lemma quotient_enclosure (a b al ah bl bh lo hi : R) :
  al < a < ah -> bl < b < bh -> 0 < al -> 0 < bl ->
  lo * bh <= al -> ah <= hi * bl ->
  lo < a / b < hi.
Proof.
  intros [Ha1 Ha2] [Hb1 Hb2] Hal Hbl Hlo Hhi.
  assert (Hb : 0 < b) by lra.
  split.
  - apply Rmult_lt_reg_r with b; [exact Hb|].
    replace (a / b * b) with a by (field; lra).
    destruct (Rle_dec lo 0) as [Hn | Hp]; nra.
  - apply Rmult_lt_reg_r with b; [exact Hb|].
    replace (a / b * b) with a by (field; lra).
    assert (0 < hi) by nra. nra.
Qed.

Lemma followUpLossFactor_at_3 :
  0.4218703 < followUpLossFactor 3 < 0.4218704.
Proof.
  unfold followUpLossFactor, rawLossPercentage, safeFollowUps.
  rewrite Rmin_left by lra. replace (3 + 1) with 4 by ring.
  assert (H : 0.5781296 < ln 4 / ln 11 < 0.5781297).
  { eapply quotient_enclosure;
      [exact ln4_enclosure | exact ln11_enclosure | lra ..]. }
  rewrite Rmax_right by lra. lra.
Qed.

Lemma timeLog_at_60 : 1.7853298 < timeLog 60 < 1.7853299.
Proof.
  unfold timeLog, log10. replace (60 + 1) with 61 by ring.
  eapply quotient_enclosure;
    [exact ln61_enclosure | exact ln10_enclosure | lra ..].
Qed.

Lemma responseTimeLossFactor_at_60 :
  0.503331 < responseTimeLossFactor 60 < 0.5033312.
Proof.
  unfold responseTimeLossFactor.
  pose proof timeLog_at_60 as [Hl Hh].
  set (t := - k * (timeLog 60 - midpoint)).
  assert (Ht : -0.01332475 < t < -0.0133245) by (unfold t, k, midpoint; lra).
  assert (He : 0.9867636 < exp t < 0.9867639).
  { split.
    - apply Rlt_trans with (exp (-0.01332475)); [|apply exp_increasing; lra].
      replace 0.9867636 with (IZR 9867636 / IZR 10000000) by lra.
      replace (-0.01332475) with (IZR (-1332475) / IZR 100000000) by lra.
      apply (exp_above 45%nat); reflexivity.
    - apply Rlt_trans with (exp (-0.0133245)); [apply exp_increasing; lra|].
      replace 0.9867639 with (IZR 9867639 / IZR 10000000) by lra.
      replace (-0.0133245) with (IZR (-133245) / IZR 10000000) by lra.
      apply (exp_below 45%nat); reflexivity. }
  assert (H : 0.503331 < 1 / (1 + exp t) < 0.5033312).
  { apply quotient_enclosure with (al := 0.9999999) (ah := 1.0000001)
                                  (bl := 1.9867636) (bh := 1.9867639); lra. }
  exact H.
Qed.

End Numerics.

(** * Where binary64 rounding decides *)

Section Rounding.

Import PrimFloat.

#[local] Open Scope float_scope.
#[local] Set Warnings "-inexact-float".

(** C1, as stated, fails in binary64: the two adjacent times 2^53 - 1 and
    2^53 have the same successor, hence the same factor whatever the host
    computes for [Math.log10] and [Math.exp], so the factor is not strictly
    increasing; and at the largest finite time the factor is exactly 1 as
    soon as [Math.exp] underflows to 0 there, so it is not strictly below
    1. *)
Lemma response_factor_rounding_counterexample :
  let a := 9007199254740991 in
  let b := 9007199254740992 in
  (0 <? a) = true
  /\ (a <? b) = true
  /\ (forall M : Double.MathLib,
        Double.responseFactor (Double.result M (Double.withResponseTime a))
        = Double.responseFactor (Double.result M (Double.withResponseTime b)))
  /\ (forall M : Double.MathLib,
        Double.Math_exp M
          (- 2.5 * (Double.Math_log10 M (Double.MAX_VALUE + 1) - 1.78))
        = 0 ->
        Double.responseFactor
          (Double.result M (Double.withResponseTime Double.MAX_VALUE))
        = 1).
Proof.
  cbv zeta. split; [reflexivity|]. split; [reflexivity|]. split.
  - intros M. reflexivity.
  - intros M H. vm_compute in H. vm_compute. rewrite H. reflexivity.
Qed.

End Rounding.

(** * The engine against its specification *)

Section Specification.

Import Engine Chart.

(** What [result] hands back, field by field, in terms of the inputs. *)
Lemma nonConvertedLeads_spec (i : Inputs) :
  nonConvertedLeads i = leads i - currentSales (result i).
Proof. reflexivity. Qed.

Lemma followUpLossSales_spec (i : Inputs) :
  followUpLossSales (result i)
  = nonConvertedLeads i * 0.50 * followUpLossFactor (followUps i) * 0.12.
Proof. reflexivity. Qed.

Lemma responseLossSales_spec (i : Inputs) :
  responseLossSales (result i)
  = nonConvertedLeads i * 0.60 * responseTimeLossFactor (responseTime i) * 0.15.
Proof. reflexivity. Qed.

Lemma efficiency_spec (i : Inputs) :
  efficiency (result i)
  = if Rgt_dec (currentSales (result i) + totalLossSales (result i)) 0
    then currentSales (result i)
         / (currentSales (result i) + totalLossSales (result i)) * 100
    else 100.
Proof. reflexivity. Qed.

(** C1: for every positive [responseTime], [responseFactor] is
    [1 / (1 + exp (-2.5 * (log10 (responseTime + 1) - 1.78)))]; it is
    positive, at most 1, and never decreases when [responseTime] grows. *)
Theorem response_factor_sigmoid (i : Inputs) :
  0 < responseTime i ->
  responseFactor (result i)
  = 1 / (1 + exp (-2.5 * (ln (responseTime i + 1) / ln 10 - 1.78)))
  /\ 0 < responseFactor (result i) <= 1
  /\ forall j : Inputs,
       responseTime i <= responseTime j ->
       responseFactor (result i) <= responseFactor (result j).
Proof.
  intros Hpos. split; [|split].
  - cbn [responseFactor result].
    unfold responseTimeLossFactor, timeLog, log10, k, midpoint.
    do 3 f_equal. lra.
  - pose proof (responseTimeLossFactor_bounds (responseTime i)) as [H0 H1].
    cbn [responseFactor result]. split; [exact H0 | left; exact H1].
  - intros j [Hlt | Heq]; cbn [responseFactor result].
    + left. apply responseTimeLossFactor_increasing; [lra | exact Hlt].
    + rewrite Heq. right. reflexivity.
Qed.

Lemma response_factor_sigmoid_witness :
  0 < responseTime defaults
  /\ 0 < responseFactor (result defaults) <= 1.
Proof.
  split; [simpl; lra|].
  apply (response_factor_sigmoid defaults). simpl; lra.
Defined.

Lemma responseStatusOf_monotone (x y : R) :
  x <= y ->
  (severity (responseStatusOf x) <= severity (responseStatusOf y))%nat.
Proof.
  intros Hxy. unfold responseStatusOf.
  repeat destruct (Rle_dec _ _); simpl; try lia; lra.
Qed.

(** C2: for every positive [responseTime] the response status is bucketed
    on raw minutes: EXCELLENT up to 5, GOOD up to 30, WARNING up to 60,
    CRITICAL above; a lower time never gets a worse label. *)
Theorem response_status_buckets (i : Inputs) :
  0 < responseTime i ->
  (responseTime i <= 5 -> responseStatus (result i) = EXCELLENT)
  /\ (5 < responseTime i <= 30 -> responseStatus (result i) = GOOD)
  /\ (30 < responseTime i <= 60 -> responseStatus (result i) = WARNING)
  /\ (60 < responseTime i -> responseStatus (result i) = CRITICAL)
  /\ forall j : Inputs,
       0 < responseTime j -> responseTime j <= responseTime i ->
       (severity (responseStatus (result j))
        <= severity (responseStatus (result i)))%nat.
Proof.
  intros Hpos.
  change (responseStatus (result i)) with (responseStatusOf (responseTime i)).
  repeat split.
  - intros H. unfold responseStatusOf.
    destruct (Rle_dec (responseTime i) 5); [reflexivity | lra].
  - intros H. unfold responseStatusOf.
    repeat destruct (Rle_dec _ _); try reflexivity; lra.
  - intros H. unfold responseStatusOf.
    repeat destruct (Rle_dec _ _); try reflexivity; lra.
  - intros H. unfold responseStatusOf.
    repeat destruct (Rle_dec _ _); try reflexivity; lra.
  - intros j _ Hji. now apply responseStatusOf_monotone.
Qed.

Lemma response_status_buckets_witness :
  0 < responseTime defaults
  /\ responseStatus (result defaults) = WARNING.
Proof.
  split; [simpl; lra|].
  apply (response_status_buckets defaults); simpl; lra.
Defined.

(** C3: [currentSales = leads * conversion / 100],
    [currentRevenue = currentSales * ticket],
    [annualRevenue = currentRevenue * 12], and both loss models draw from
    [leads - currentSales]; [result] is a total function of the inputs. *)
Theorem baseline_performance (i : Inputs) :
  currentSales (result i) = leads i * conversion i / 100
  /\ currentRevenue (result i) = currentSales (result i) * ticket i
  /\ annualRevenue (result i) = currentRevenue (result i) * 12
  /\ followUpLossSales (result i)
     = (leads i - currentSales (result i)) * 0.50
       * followUpFactor (result i) * 0.12
  /\ responseLossSales (result i)
     = (leads i - currentSales (result i)) * 0.60
       * responseFactor (result i) * 0.15.
Proof.
  repeat split; try reflexivity.
  simpl. field.
Qed.

(** C4: at [n] follow-up attempts the factor is
    [max 0 (1 - ln (min n 10 + 1) / ln 11)]: exactly 1 at 0 attempts,
    exactly 0 at 10, never increasing with [n], constantly 0 from 10 on,
    and always within [0, 1]. *)
Theorem followup_factor_curve (l c t r : R) (n : nat) :
  let F := fun m : nat => followUpFactor (result (mkInputs l c t (INR m) r)) in
  F n = Rmax 0 (1 - ln (Rmin (INR n) 10 + 1) / ln 11)
  /\ F 0%nat = 1
  /\ F 10%nat = 0
  /\ (forall m : nat, (n <= m)%nat -> F m <= F n)
  /\ ((10 <= n)%nat -> F n = 0)
  /\ 0 <= F n <= 1.
Proof.
  intros F. subst F. cbn [followUpFactor result followUps].
  split; [reflexivity|].
  split; [exact followUpLossFactor_at_0|].
  split; [apply followUpLossFactor_from_10; simpl; lra|].
  split; [|split].
  - intros m Hnm. apply followUpLossFactor_antitone.
    + apply pos_INR.
    + now apply le_INR.
  - intros Hn. apply followUpLossFactor_from_10.
    replace 10 with (INR 10) by (simpl; lra). now apply le_INR.
  - split; [apply followUpLossFactor_nonneg|].
    apply followUpLossFactor_le_1, pos_INR.
Qed.

Lemma followup_factor_curve_witness :
  followUpFactor (result (mkInputs 100 10 5000 (INR 10) 60)) = 0
  /\ 0 <= followUpFactor (result (mkInputs 100 10 5000 (INR 3) 60)) <= 1.
Proof.
  split.
  - apply (followup_factor_curve 100 10 5000 60 10). apply le_n.
  - apply (followup_factor_curve 100 10 5000 60 3).
Defined.

(** C5: the follow-up status is CRITICAL when the factor exceeds 0.60,
    WARNING when it lies in [0.30, 0.60] and ADEQUATE below; 0.60 and 0.30
    themselves are WARNING. *)
Theorem followup_status_thresholds (i : Inputs) :
  followUpStatus (result i) = followUpStatusOf (followUpFactor (result i))
  /\ (forall f : R, f > 0.60 -> followUpStatusOf f = CRITICAL)
  /\ (forall f : R, 0.30 <= f <= 0.60 -> followUpStatusOf f = WARNING)
  /\ (forall f : R, f < 0.30 -> followUpStatusOf f = ADEQUATE)
  /\ followUpStatusOf 0.60 = WARNING
  /\ followUpStatusOf 0.30 = WARNING.
Proof.
  split; [reflexivity|].
  repeat split; try intros f H; unfold followUpStatusOf;
    destruct (Rgt_dec _ _); try destruct (Rge_dec _ _);
    try reflexivity; lra.
Qed.

Lemma followup_status_thresholds_witness :
  0.30 <= 0.45 <= 0.60 /\ followUpStatusOf 0.45 = WARNING.
Proof.
  split; [lra|].
  apply (followup_status_thresholds defaults). lra.
Defined.

(** C7: for each model [lossRevenue = lossSales * ticket] and
    [lossAnnual = lossRevenue * 12]; the totals are the plain sums of the
    two models' sales, revenue and annual figures. *)
Theorem loss_relations (i : Inputs) :
  followUpLossRevenue (result i) = followUpLossSales (result i) * ticket i
  /\ followUpLossAnnual (result i) = followUpLossRevenue (result i) * 12
  /\ responseLossRevenue (result i) = responseLossSales (result i) * ticket i
  /\ responseLossAnnual (result i) = responseLossRevenue (result i) * 12
  /\ totalLossSales (result i)
     = followUpLossSales (result i) + responseLossSales (result i)
  /\ totalLossRevenue (result i)
     = followUpLossRevenue (result i) + responseLossRevenue (result i)
  /\ totalLossAnnual (result i)
     = followUpLossAnnual (result i) + responseLossAnnual (result i).
Proof.
  repeat split; try reflexivity.
  simpl. ring.
Qed.

(** The share of the non-converted pool that the two models together
    count as lost sales. *)
Lemma totalLossSales_spec (i : Inputs) :
  totalLossSales (result i)
  = nonConvertedLeads i
    * (0.06 * followUpLossFactor (followUps i)
       + 0.09 * responseTimeLossFactor (responseTime i)).
Proof. cbn [totalLossSales result]. unfold nonConvertedLeads. lra. Qed.

Lemma lossShare_bounds (i : Inputs) :
  0 <= followUps i ->
  0 < 0.06 * followUpLossFactor (followUps i)
      + 0.09 * responseTimeLossFactor (responseTime i) <= 0.15.
Proof.
  intros Hf.
  pose proof (followUpLossFactor_nonneg (followUps i)).
  pose proof (followUpLossFactor_le_1 (followUps i) Hf).
  pose proof (responseTimeLossFactor_bounds (responseTime i)).
  lra.
Qed.

(** With a conversion rate above 100 the pool is negative and the score
    leaves the percentage range. *)
Lemma efficiency_above_100 (i : Inputs) :
  0 < leads i -> 100 < conversion i -> 0 <= followUps i ->
  100 < efficiency (result i).
Proof.
  intros HL Hc Hf.
  rewrite efficiency_spec, totalLossSales_spec.
  pose proof (lossShare_bounds i Hf) as Hg.
  set (g := 0.06 * followUpLossFactor (followUps i)
            + 0.09 * responseTimeLossFactor (responseTime i)) in *.
  cbn [currentSales result]. unfold nonConvertedLeads.
  set (L := leads i) in *. set (c := conversion i) in *.
  assert (Hcs : L < L * (c / 100)) by nra.
  assert (Hnc : L - L * (c / 100) < 0) by lra.
  assert (Htl : (L - L * (c / 100)) * g < 0) by nra.
  assert (Hlow : (L - L * (c / 100)) * 0.15 <= (L - L * (c / 100)) * g) by nra.
  destruct (Rgt_dec (L * (c / 100) + (L - L * (c / 100)) * g) 0) as [Hd | Hd];
    [|exfalso; apply Hd; nra].
  apply Rmult_lt_reg_r with (L * (c / 100) + (L - L * (c / 100)) * g);
    [exact Hd|].
  replace (L * (c / 100) / (L * (c / 100) + (L - L * (c / 100)) * g) * 100
           * (L * (c / 100) + (L - L * (c / 100)) * g))
    with (L * (c / 100) * 100) by (field; lra).
  lra.
Qed.

(** C6, as stated, fails: a conversion rate of 200 with ten follow-ups and
    a one-hour response time scores above 100. *)
Lemma efficiency_range_counterexample :
  let i := {| leads := 100; conversion := 200; ticket := 5000;
              followUps := 10; responseTime := 60 |} in
  0 <= leads i /\ 0 <= conversion i /\ 0 <= ticket i
  /\ 0 <= followUps i /\ 0 <= responseTime i
  /\ ~ (0 <= efficiency (result i) <= 100).
Proof.
  intros i. subst i. cbn [leads conversion ticket followUps responseTime].
  repeat (split; [lra|]).
  intros [_ Hle]. apply (Rlt_irrefl 100).
  eapply Rlt_le_trans; [|exact Hle].
  apply efficiency_above_100; simpl; lra.
Qed.

(** C6: for non-negative inputs [efficiency] is
    [currentSales / (currentSales + totalLossSales) * 100], and 100 when
    that denominator is zero; it is 100 when no loss is recoverable; and
    with a conversion rate of at most 100 it lies in [0, 100]. *)
Theorem efficiency_score (i : Inputs) :
  0 <= leads i -> 0 <= conversion i -> 0 <= ticket i ->
  0 <= followUps i -> 0 <= responseTime i ->
  (currentSales (result i) + totalLossSales (result i) = 0 ->
   efficiency (result i) = 100)
  /\ (currentSales (result i) + totalLossSales (result i) <> 0 ->
      efficiency (result i)
      = currentSales (result i)
        / (currentSales (result i) + totalLossSales (result i)) * 100)
  /\ (totalLossSales (result i) = 0 -> efficiency (result i) = 100)
  /\ (conversion i <= 100 -> 0 <= efficiency (result i) <= 100).
Proof.
  intros HL Hc Ht Hf Hr.
  pose proof (lossShare_bounds i Hf) as Hg.
  rewrite efficiency_spec, totalLossSales_spec.
  set (g := 0.06 * followUpLossFactor (followUps i)
            + 0.09 * responseTimeLossFactor (responseTime i)) in *.
  cbn [currentSales result]. unfold nonConvertedLeads.
  set (L := leads i) in *. set (c := conversion i) in *.
  set (cs := L * (c / 100)).
  assert (Hcs : 0 <= cs) by (unfold cs; nra).
  assert (Hden : 0 <= cs + (L - cs) * g).
  { replace (cs + (L - cs) * g) with (cs * (1 - g) + L * g) by ring. nra. }
  split; [|split; [|split]].
  - intros H0. destruct (Rgt_dec _ _) as [Hd | Hd]; [lra | reflexivity].
  - intros Hn. destruct (Rgt_dec _ _) as [Hd | Hd]; [reflexivity | lra].
  - intros H0. rewrite H0, Rplus_0_r.
    destruct (Rgt_dec cs 0) as [Hd | Hd]; [field; lra | reflexivity].
  - intros Hc100.
    assert (Hpool : 0 <= L - cs) by (unfold cs; nra).
    assert (Hnc : 0 <= (L - cs) * g) by (apply Rmult_le_pos; lra).
    destruct (Rgt_dec _ _) as [Hd | Hd]; [|lra].
    assert (Hq : 0 <= cs / (cs + (L - cs) * g) <= 1).
    { split.
      - apply Rmult_le_pos; [exact Hcs | left; now apply Rinv_0_lt_compat].
      - apply Rmult_le_reg_r with (cs + (L - cs) * g); [exact Hd|].
        replace (cs / (cs + (L - cs) * g) * (cs + (L - cs) * g))
          with cs by (field; lra).
        lra. }
    lra.
Qed.

Lemma efficiency_score_witness :
  0 <= efficiency (result defaults) <= 100.
Proof.
  apply (efficiency_score defaults); simpl; lra.
Defined.


Lemma responseLossAnnual_spec (i : Inputs) :
  responseLossAnnual (result i)
  = nonConvertedLeads i * ticket i
    * (1.08 * responseTimeLossFactor (responseTime i)).
Proof. cbn [responseLossAnnual result]. unfold nonConvertedLeads. lra. Qed.

Lemma totalLossAnnual_spec (i : Inputs) :
  totalLossAnnual (result i)
  = followUpLossAnnual (result i) + responseLossAnnual (result i).
Proof. cbn [totalLossAnnual followUpLossAnnual responseLossAnnual result]. ring. Qed.






Section OverconversionRounding.

Import PrimFloat.

#[local] Set Warnings "-inexact-float".


End OverconversionRounding.



(** The default scenario to six digits. *)
Lemma defaults_enclosures :
  let r := result defaults in
  0.42187 < followUpFactor r < 0.42188
  /\ 2.27809 < followUpLossSales r < 2.27811
  /\ 11390.4 < followUpLossRevenue r < 11390.6
  /\ 0.50333 < responseFactor r < 0.50334
  /\ 4.07698 < responseLossSales r < 4.07699
  /\ 20384.9 < responseLossRevenue r < 20385
  /\ 31775.3 < totalLossRevenue r < 31775.5
  /\ 16.35507 < currentSales r + totalLossSales r < 16.3551.
Proof.
  intros r. subst r.
  pose proof followUpLossFactor_at_3 as H1.
  pose proof responseTimeLossFactor_at_60 as H2.
  cbn [followUpFactor followUpLossSales followUpLossRevenue responseFactor
       responseLossSales responseLossRevenue totalLossRevenue currentSales
       totalLossSales result defaults leads conversion ticket followUps
       responseTime].
  set (f1 := followUpLossFactor 3) in *.
  set (f2 := responseTimeLossFactor 60) in *.
  repeat split; lra.
Qed.

(** C8: at the defaults (100 leads, 10 % conversion, ticket 5000, 3
    follow-ups, 60 minutes) the baseline is 10 sales, 50000 a month and
    600000 a year, the follow-up status is WARNING, and every other figure
    is within 0.1 % of the quoted one. *)
Theorem default_scenario :
  let r := result defaults in
  currentSales r = 10
  /\ currentRevenue r = 50000
  /\ annualRevenue r = 600000
  /\ within 0.001 0.4217 (followUpFactor r)
  /\ followUpStatus r = WARNING
  /\ within 0.001 2.28 (followUpLossSales r)
  /\ within 0.001 11385 (followUpLossRevenue r)
  /\ within 0.001 0.5033 (responseFactor r)
  /\ within 0.001 4.08 (responseLossSales r)
  /\ within 0.001 20385 (responseLossRevenue r)
  /\ within 0.001 31770 (totalLossRevenue r)
  /\ within 0.001 61.2 (efficiency r).
Proof.
  intros r.
  destruct defaults_enclosures
    as (H1 & H2 & H3 & H4 & H5 & H6 & H7 & H8).
  fold r in H1, H2, H3, H4, H5, H6, H7, H8.
  assert (Hcs : currentSales r = 10) by (subst r; simpl; lra).
  assert (Hw : forall q a : R, 0 <= q -> q * 0.999 <= a <= q * 1.001 ->
                               within 0.001 q a).
  { intros q a Hq Ha. unfold within. rewrite (Rabs_pos_eq q Hq).
    apply Rabs_le. lra. }
  split; [exact Hcs|].
  split; [subst r; simpl; lra|].
  split; [subst r; simpl; lra|].
  split; [apply Hw; lra|].
  split.
  { change (followUpStatus r) with (followUpStatusOf (followUpFactor r)).
    unfold followUpStatusOf.
    destruct (Rgt_dec _ _); [lra|].
    destruct (Rge_dec _ _); [reflexivity | lra]. }
  split; [apply Hw; lra|].
  split; [apply Hw; lra|].
  split; [apply Hw; lra|].
  split; [apply Hw; lra|].
  split; [apply Hw; lra|].
  split; [apply Hw; lra|].
  apply Hw; [lra|].
  subst r. rewrite efficiency_spec. rewrite Hcs in *.
  set (d := 10 + totalLossSales (result defaults)) in *.
  destruct (Rgt_dec d 0) as [Hd | Hd]; [|lra].
  assert (Hq : 0.611430 < 10 / d < 0.611432).
  { apply quotient_enclosure with (al := 9.9999999) (ah := 10.0000001)
                                  (bl := 16.35507) (bh := 16.3551); lra. }
  lra.
Qed.

(** The earlier revision's cascade on the factor disagrees with the
    cascade on minutes already at the defaults: one hour is WARNING by
    minutes and IMPROVE by factor. *)
Lemma legacy_cascade_differs :
  responseStatus (result defaults) = WARNING
  /\ Legacy.responseStatusOf (responseFactor (result defaults)) = IMPROVE.
Proof.
  split.
  - cbn [responseStatus result defaults responseTime].
    unfold responseStatusOf.
    repeat destruct (Rle_dec _ _); try reflexivity; lra.
  - cbn [responseFactor result defaults responseTime].
    pose proof responseTimeLossFactor_at_60 as H.
    unfold Legacy.responseStatusOf.
    repeat destruct (Rlt_dec _ _); try reflexivity; lra.
Qed.

Lemma legacy_cascade_monotone (f g : R) :
  f <= g ->
  (severity (Legacy.responseStatusOf f)
   <= severity (Legacy.responseStatusOf g))%nat.
Proof.
  intros Hfg. unfold Legacy.responseStatusOf.
  repeat destruct (Rlt_dec _ _); simpl; try lia; lra.
Qed.

End Specification.
(** * The engine on the inputs the form is meant for *)

Section InDomain.

Import Engine Chart View.

Lemma pool_nonneg (i : Inputs) : inDomain i -> 0 <= nonConvertedLeads i.
Proof.
  intros (HL & [Hc0 Hc1] & _). unfold nonConvertedLeads. nra.
Qed.

Lemma currentSales_nonneg (i : Inputs) :
  inDomain i -> 0 <= currentSales (result i).
Proof.
  intros (HL & [Hc0 Hc1] & _). cbn [currentSales result]. nra.
Qed.

(** The score as a function of the sales and of the lost sales. *)
Lemma score_range (cs tl : R) :
  0 <= cs -> 0 <= tl ->
  0 <= (if Rgt_dec (cs + tl) 0 then cs / (cs + tl) * 100 else 100) <= 100.
Proof.
  intros Hcs Htl. destruct (Rgt_dec (cs + tl) 0) as [Hd | Hd]; [|lra].
  assert (Hq : 0 <= cs / (cs + tl) <= 1).
  { split.
    - apply Rmult_le_pos; [exact Hcs | left; now apply Rinv_0_lt_compat].
    - apply Rmult_le_reg_r with (cs + tl); [exact Hd|].
      replace (cs / (cs + tl) * (cs + tl)) with cs by (field; lra). lra. }
  lra.
Qed.

Lemma score_antitone (cs tl1 tl2 : R) :
  0 <= cs -> 0 <= tl1 -> tl1 <= tl2 ->
  (if Rgt_dec (cs + tl2) 0 then cs / (cs + tl2) * 100 else 100)
  <= (if Rgt_dec (cs + tl1) 0 then cs / (cs + tl1) * 100 else 100).
Proof.
  intros Hcs H1 H12.
  pose proof (score_range cs tl2 Hcs ltac:(lra)) as Hr.
  destruct (Rgt_dec (cs + tl1) 0) as [Hd1 | Hd1].
  - destruct (Rgt_dec (cs + tl2) 0) as [Hd2 | Hd2]; [|lra].
    apply Rmult_le_compat_r; [lra|].
    apply Rmult_le_compat_l; [exact Hcs|].
    apply Rinv_le_contravar; lra.
  - exact (proj2 Hr).
Qed.

Lemma lossShare_nonneg (i : Inputs) :
  inDomain i ->
  0 < 0.06 * followUpLossFactor (followUps i)
      + 0.09 * responseTimeLossFactor (responseTime i) <= 0.15.
Proof.
  intros (_ & _ & _ & Hf & _). now apply lossShare_bounds.
Qed.

Lemma totalLossSales_nonneg (i : Inputs) :
  inDomain i -> 0 <= totalLossSales (result i).
Proof.
  intros Hd. rewrite totalLossSales_spec.
  apply Rmult_le_pos; [now apply pool_nonneg|].
  left. apply (lossShare_nonneg i Hd).
Qed.

Lemma efficiency_in_range (i : Inputs) :
  inDomain i -> 0 <= efficiency (result i) <= 100.
Proof.
  intros Hd. rewrite efficiency_spec.
  apply score_range; [now apply currentSales_nonneg|].
  now apply totalLossSales_nonneg.
Qed.

Lemma defaults_inDomain : inDomain defaults.
Proof. unfold inDomain. simpl. lra. Qed.

Lemma losses_nonneg_monthly (i : Inputs) :
  inDomain i ->
  0 <= followUpLossRevenue (result i) /\ 0 <= responseLossRevenue (result i).
Proof.
  intros Hd.
  pose proof (pool_nonneg i Hd) as Hp.
  destruct Hd as (_ & _ & Ht & Hf & _).
  pose proof (followUpLossFactor_nonneg (followUps i)) as H1.
  pose proof (responseTimeLossFactor_bounds (responseTime i)) as [H2 _].
  unfold nonConvertedLeads in Hp.
  cbn [followUpLossRevenue responseLossRevenue result].
  set (f1 := followUpLossFactor (followUps i)) in *.
  set (f2 := responseTimeLossFactor (responseTime i)) in *.
  set (nc := leads i - leads i * (conversion i / 100)) in *.
  assert (0 <= nc * f1) by (apply Rmult_le_pos; lra).
  assert (0 <= nc * f2) by (apply Rmult_le_pos; lra).
  assert (0 <= nc * f1 * ticket i) by (apply Rmult_le_pos; lra).
  assert (0 <= nc * f2 * ticket i) by (apply Rmult_le_pos; lra).
  split; lra.
Qed.

Lemma losses_nonneg (i : Inputs) :
  inDomain i ->
  0 <= followUpLossAnnual (result i) /\ 0 <= responseLossAnnual (result i).
Proof.
  intros Hd. destruct (losses_nonneg_monthly i Hd) as [Hf Hr].
  change (followUpLossAnnual (result i))
    with (followUpLossRevenue (result i) * 12).
  change (responseLossAnnual (result i))
    with (responseLossRevenue (result i) * 12).
  lra.
Qed.

(** X1: on the form's domain no loss figure is negative, the follow-up model
    writes off at most 6 % of the non-converted leads, the response model
    less than 9 %, and both together less than 15 %. *)
Theorem losses_in_domain (i : Inputs) :
  inDomain i ->
  0 <= followUpLossSales (result i)
    <= 0.06 * (leads i - currentSales (result i))
  /\ 0 <= responseLossSales (result i)
       <= 0.09 * (leads i - currentSales (result i))
  /\ 0 <= totalLossSales (result i)
       <= 0.15 * (leads i - currentSales (result i))
  /\ 0 <= followUpLossRevenue (result i)
  /\ 0 <= responseLossRevenue (result i)
  /\ 0 <= totalLossAnnual (result i).
Proof.
  intros Hd.
  pose proof (pool_nonneg i Hd) as Hp.
  destruct Hd as (HL & Hc & Ht & Hf & Hr).
  pose proof (followUpLossFactor_nonneg (followUps i)) as H1.
  pose proof (followUpLossFactor_le_1 (followUps i) Hf) as H1'.
  pose proof (responseTimeLossFactor_bounds (responseTime i)) as [H2 H2'].
  rewrite <- nonConvertedLeads_spec.
  assert (Ha : 0 <= nonConvertedLeads i * followUpLossFactor (followUps i)
               <= nonConvertedLeads i) by nra.
  assert (Hb : 0 <= nonConvertedLeads i
                    * responseTimeLossFactor (responseTime i)
               <= nonConvertedLeads i) by nra.
  assert (Hfs : followUpLossSales (result i)
                = 0.06 * (nonConvertedLeads i
                          * followUpLossFactor (followUps i)))
    by (rewrite followUpLossSales_spec; lra).
  assert (Hrs : responseLossSales (result i)
                = 0.09 * (nonConvertedLeads i
                          * responseTimeLossFactor (responseTime i)))
    by (rewrite responseLossSales_spec; lra).
  assert (Hts : totalLossSales (result i)
                = followUpLossSales (result i) + responseLossSales (result i))
    by reflexivity.
  assert (Hfr : followUpLossRevenue (result i)
                = followUpLossSales (result i) * ticket i) by reflexivity.
  assert (Hrr : responseLossRevenue (result i)
                = responseLossSales (result i) * ticket i) by reflexivity.
  assert (Hta : totalLossAnnual (result i)
                = (followUpLossRevenue (result i)
                   + responseLossRevenue (result i)) * 12) by reflexivity.
  assert (0 <= followUpLossSales (result i) * ticket i)
    by (apply Rmult_le_pos; lra).
  assert (0 <= responseLossSales (result i) * ticket i)
    by (apply Rmult_le_pos; lra).
  repeat split; lra.
Qed.

Lemma losses_in_domain_witness :
  inDomain defaults /\ 0 <= totalLossAnnual (result defaults).
Proof.
  split; [exact defaults_inDomain|].
  apply (losses_in_domain defaults defaults_inDomain).
Defined.

End InDomain.

(** * How the result moves with the two process inputs *)

Section Levers.

Import Engine Chart View.

Lemma setField_inDomain_responseTime (i : Inputs) (t : R) :
  inDomain i -> 0 <= t -> inDomain (setField ResponseTime t i).
Proof. unfold inDomain. simpl. tauto. Qed.

Lemma setField_inDomain_followUps (i : Inputs) (n : R) :
  inDomain i -> 0 <= n -> inDomain (setField FollowUps n i).
Proof. unfold inDomain. simpl. tauto. Qed.

Lemma responseTimeLossFactor_monotone (x y : R) :
  0 <= x -> x <= y ->
  responseTimeLossFactor x <= responseTimeLossFactor y.
Proof.
  intros Hx [Hlt | ->]; [left | right; reflexivity].
  apply responseTimeLossFactor_increasing; lra.
Qed.

(** X4: with the other inputs unchanged on the form's domain, a shorter
    response time never raises the response loss or the total annual loss
    and never lowers the score. *)
Theorem faster_response_never_hurts (i : Inputs) (t : R) :
  inDomain i -> 0 <= t <= responseTime i ->
  responseLossSales (result (setField ResponseTime t i))
  <= responseLossSales (result i)
  /\ totalLossAnnual (result (setField ResponseTime t i))
     <= totalLossAnnual (result i)
  /\ efficiency (result i)
     <= efficiency (result (setField ResponseTime t i)).
Proof.
  intros Hd [Ht0 Ht].
  pose proof (setField_inDomain_responseTime i t Hd Ht0) as Hd'.
  pose proof (pool_nonneg i Hd) as Hp.
  pose proof (responseTimeLossFactor_monotone t (responseTime i) Ht0 Ht) as Hm.
  pose proof (responseTimeLossFactor_bounds t) as [Hf0 _].
  assert (Hpool : nonConvertedLeads (setField ResponseTime t i)
                  = nonConvertedLeads i) by reflexivity.
  assert (Hprod : nonConvertedLeads i * responseTimeLossFactor t
                  <= nonConvertedLeads i
                     * responseTimeLossFactor (responseTime i))
    by (apply Rmult_le_compat_l; assumption).
  assert (Hsales : responseLossSales (result (setField ResponseTime t i))
                   <= responseLossSales (result i)).
  { rewrite !responseLossSales_spec, Hpool.
    cbn [responseTime setField]. lra. }
  assert (Htot : totalLossSales (result (setField ResponseTime t i))
                 <= totalLossSales (result i)).
  { rewrite !totalLossSales_spec, Hpool.
    cbn [responseTime followUps setField]. lra. }
  split; [exact Hsales|]. split.
  - destruct Hd as (_ & _ & Htk & _).
    rewrite !totalLossAnnual_spec, !responseLossAnnual_spec, Hpool.
    assert (Hfu : followUpLossAnnual (result (setField ResponseTime t i))
                  = followUpLossAnnual (result i)) by reflexivity.
    rewrite Hfu. cbn [responseTime ticket setField].
    assert (nonConvertedLeads i * responseTimeLossFactor t * ticket i
            <= nonConvertedLeads i * responseTimeLossFactor (responseTime i)
               * ticket i)
      by (apply Rmult_le_compat_r; assumption).
    lra.
  - rewrite !efficiency_spec.
    assert (Hcs : currentSales (result (setField ResponseTime t i))
                  = currentSales (result i)) by reflexivity.
    rewrite Hcs.
    apply score_antitone;
      [now apply currentSales_nonneg | now apply totalLossSales_nonneg
       | exact Htot].
Qed.

Lemma faster_response_never_hurts_witness :
  inDomain defaults /\ 0 <= 5 <= responseTime defaults
  /\ efficiency (result defaults)
     <= efficiency (result (setField ResponseTime 5 defaults)).
Proof.
  assert (Ht : 0 <= 5 <= responseTime defaults) by (simpl; lra).
  split; [exact defaults_inDomain|]. split; [exact Ht|].
  apply (faster_response_never_hurts defaults 5 defaults_inDomain Ht).
Defined.

(** X5: with the other inputs unchanged on the form's domain, more follow-up
    attempts never raise the follow-up loss or the total annual loss and
    never lower the score. *)
Theorem more_followups_never_hurt (i : Inputs) (n : R) :
  inDomain i -> followUps i <= n ->
  followUpLossSales (result (setField FollowUps n i))
  <= followUpLossSales (result i)
  /\ totalLossAnnual (result (setField FollowUps n i))
     <= totalLossAnnual (result i)
  /\ efficiency (result i)
     <= efficiency (result (setField FollowUps n i)).
Proof.
  intros Hd Hn.
  assert (Hf : 0 <= followUps i)
    by (destruct Hd as (_ & _ & _ & Hf & _); exact Hf).
  assert (Hn0 : 0 <= n) by lra.
  pose proof (setField_inDomain_followUps i n Hd Hn0) as Hd'.
  pose proof (pool_nonneg i Hd) as Hp.
  pose proof (followUpLossFactor_antitone (followUps i) n Hf Hn) as Hm.
  assert (Hpool : nonConvertedLeads (setField FollowUps n i)
                  = nonConvertedLeads i) by reflexivity.
  assert (Hprod : nonConvertedLeads i * followUpLossFactor n
                  <= nonConvertedLeads i * followUpLossFactor (followUps i))
    by (apply Rmult_le_compat_l; assumption).
  assert (Hsales : followUpLossSales (result (setField FollowUps n i))
                   <= followUpLossSales (result i)).
  { rewrite !followUpLossSales_spec, Hpool.
    cbn [followUps setField]. lra. }
  assert (Htot : totalLossSales (result (setField FollowUps n i))
                 <= totalLossSales (result i)).
  { rewrite !totalLossSales_spec, Hpool.
    cbn [responseTime followUps setField]. lra. }
  split; [exact Hsales|]. split.
  - destruct Hd as (_ & _ & Htk & _).
    assert (Hrev : followUpLossSales (result (setField FollowUps n i)) * ticket i
                   <= followUpLossSales (result i) * ticket i)
      by (apply Rmult_le_compat_r; assumption).
    assert (Ha : totalLossAnnual (result (setField FollowUps n i))
                 = (followUpLossSales (result (setField FollowUps n i))
                    * ticket i
                    + responseLossRevenue (result i)) * 12) by reflexivity.
    assert (Hb : totalLossAnnual (result i)
                 = (followUpLossSales (result i) * ticket i
                    + responseLossRevenue (result i)) * 12) by reflexivity.
    lra.
  - rewrite !efficiency_spec.
    assert (Hcs : currentSales (result (setField FollowUps n i))
                  = currentSales (result i)) by reflexivity.
    rewrite Hcs.
    apply score_antitone;
      [now apply currentSales_nonneg | now apply totalLossSales_nonneg
       | exact Htot].
Qed.

Lemma more_followups_never_hurt_witness :
  inDomain defaults /\ followUps defaults <= 7
  /\ efficiency (result defaults)
     <= efficiency (result (setField FollowUps 7 defaults)).
Proof.
  assert (Hn : followUps defaults <= 7) by (simpl; lra).
  split; [exact defaults_inDomain|]. split; [exact Hn|].
  apply (more_followups_never_hurt defaults 7 defaults_inDomain Hn).
Defined.

(** X6: neither cascade ever hands out a label of the other: the follow-up
    status is CRITICAL, WARNING or ADEQUATE and the response status is
    EXCELLENT, GOOD, WARNING or CRITICAL, never IMPROVE. *)
Theorem engine_statuses (i : Inputs) :
  In (followUpStatus (result i)) [CRITICAL; WARNING; ADEQUATE]
  /\ In (responseStatus (result i)) [EXCELLENT; GOOD; WARNING; CRITICAL]
  /\ responseStatus (result i) <> IMPROVE.
Proof.
  cbn [followUpStatus responseStatus result].
  unfold followUpStatusOf, responseStatusOf.
  destruct (Rgt_dec _ _); [|destruct (Rge_dec _ _)];
    (destruct (Rle_dec (responseTime i) 5);
     [|destruct (Rle_dec (responseTime i) 30);
       [|destruct (Rle_dec (responseTime i) 60)]]);
    simpl; repeat split; try tauto; discriminate.
Qed.

End Levers.

(** * Soundness of the certificates *)

Section CertificateFacts.

Import Engine Enclosure Certificate.

Lemma squarings_nonneg (n : nat) :
  forall m : Z, (0 <= m)%Z -> (0 <= squarings n m)%Z.
Proof.
  induction n as [|n IH]; intros m Hm; simpl; [exact Hm|].
  apply IH. apply Z.div_pos; [nia | reflexivity].
Qed.

Lemma exp_floor_nonneg (n : nat) (p q : Z) :
  base_ok n p q = true -> 0 <= IZR (exp_floor n p q) / IZR scale.
Proof.
  intros Hb. apply Z.leb_le in Hb.
  apply Rmult_le_pos; [|left; apply Rinv_0_lt_compat, scale_pos].
  apply IZR_le. now apply squarings_nonneg.
Qed.

Lemma factor_lt_real (x T E c : R) :
  timeLog x < T -> 0 <= E -> E <= exp (- k * (T - midpoint)) ->
  1 <= c * (1 + E) ->
  responseTimeLossFactor x < c.
Proof.
  intros HT HE0 HE Hc. unfold responseTimeLossFactor.
  set (u := - k * (timeLog x - midpoint)).
  assert (Hu : exp (- k * (T - midpoint)) < exp u).
  { apply exp_increasing. unfold u, k. lra. }
  assert (Hc0 : 0 < c) by nra.
  apply Rmult_lt_reg_r with (1 + exp u); [lra|].
  replace (1 / (1 + exp u) * (1 + exp u)) with 1 by (field; lra).
  nra.
Qed.

Lemma factor_gt_real (x T F c : R) :
  T < timeLog x -> 0 < F -> F <= exp (k * (T - midpoint)) ->
  c * (F + 1) <= F ->
  c < responseTimeLossFactor x.
Proof.
  intros HT HF0 HF Hc. unfold responseTimeLossFactor.
  set (u := - k * (timeLog x - midpoint)).
  assert (Hu : exp (k * (T - midpoint)) < exp (- u)).
  { apply exp_increasing. unfold u, k. lra. }
  pose proof (exp_pos u) as Hpu.
  assert (Hinv : exp u * exp (- u) = 1).
  { rewrite <- exp_plus. replace (u + - u) with 0 by ring. apply exp_0. }
  assert (HFu : F * exp u < 1) by nra.
  apply Rmult_lt_reg_r with (1 + exp u); [lra|].
  replace (1 / (1 + exp u) * (1 + exp u)) with 1 by (field; lra).
  destruct (Rle_dec c 0) as [Hn | Hp]; [nra|].
  assert (Hcp : 0 < c) by lra.
  apply Rmult_lt_reg_l with F; [exact HF0|].
  assert (c * (F * exp u) < c * 1) by (apply Rmult_lt_compat_l; assumption).
  nra.
Qed.

Lemma ln10_certified :
  IZR ln10_lo / IZR digits < ln 10 < IZR ln10_hi / IZR digits.
Proof.
  pose proof ln10_enclosure as [Hl Hh].
  unfold ln10_lo, ln10_hi, digits. simpl Z.pow. lra.
Qed.

Lemma exponent_value (a l : Z) :
  (0 < l)%Z ->
  IZR (exponent_num a l) / IZR (exponent_den l)
  = - k * (IZR a / IZR l - midpoint).
Proof.
  intros Hl. apply IZR_lt in Hl.
  replace k with (25 / 10) by (unfold k; lra).
  replace midpoint with (178 / 100) by (unfold midpoint; lra).
  unfold exponent_num, exponent_den, digits.
  rewrite minus_IZR, !mult_IZR.
  change (IZR (10 ^ 8)) with 100000000.
  field. lra.
Qed.

Lemma factor_lt_check_sound (n : nat) (m a cn cd : Z) :
  factor_lt_check n m a cn cd = true ->
  responseTimeLossFactor (IZR m) < IZR cn / IZR cd.
Proof.
  unfold factor_lt_check. intros H.
  repeat (apply andb_prop in H; destruct H as [H ?]).
  rename H into Hm, H0 into Hchk, H1 into Hb2, H2 into Hln, H3 into Hb1,
         H4 into Hcd.
  apply Z.ltb_lt in Hm, Hcd, Hln. apply Z.leb_le in Hchk.
  assert (HmR : 1 <= IZR (m + 1)) by (apply IZR_le; lia).
  assert (HcdR : 0 < IZR cd) by now apply IZR_lt.
  pose proof scale_pos as HS.
  pose proof ln10_certified as [HL _].
  assert (HL0 : 0 < IZR ln10_lo) by (apply IZR_lt; reflexivity).
  assert (HD0 : 0 < IZR digits) by (apply IZR_lt; reflexivity).
  assert (Hup : ln (IZR (m + 1)) < IZR a / IZR digits).
  { apply (ln_int_below n a digits (m + 1)); [reflexivity | lia | exact Hb1
                                               | exact Hln]. }
  assert (Hlo : 0 <= ln (IZR (m + 1))).
  { rewrite <- ln_1. apply ln_nondecreasing; lra. }
  assert (HT : timeLog (IZR m) < IZR a / IZR ln10_lo).
  { unfold timeLog, log10. rewrite <- (plus_IZR m 1).
    pose proof ln10_pos as H10.
    apply Rmult_lt_reg_r with (ln 10); [exact H10|].
    replace (ln (IZR (m + 1)) / ln 10 * ln 10) with (ln (IZR (m + 1)))
      by (field; lra).
    assert (Ha : 0 < IZR a / IZR digits) by lra.
    assert (Hq : IZR a / IZR ln10_lo * (IZR ln10_lo / IZR digits)
                 = IZR a / IZR digits) by (field; lra).
    assert (Hx : 0 < IZR a / IZR ln10_lo).
    { apply Rmult_lt_reg_r with (IZR ln10_lo / IZR digits);
        [apply Rdiv_lt_0_compat; lra | rewrite Hq; lra]. }
    nra. }
  apply factor_lt_real
    with (T := IZR a / IZR ln10_lo)
         (E := IZR (exp_floor n (exponent_num a ln10_lo) (exponent_den ln10_lo))
               / IZR scale).
  - exact HT.
  - now apply exp_floor_nonneg.
  - rewrite <- exponent_value by reflexivity.
    apply exp_floor_sound; [reflexivity | exact Hb2].
  - apply IZR_le in Hchk. rewrite !mult_IZR, plus_IZR in Hchk.
    apply Rmult_le_reg_r with (IZR cd * IZR scale); [nra|].
    replace (IZR cn / IZR cd *
             (1 + IZR (exp_floor n (exponent_num a ln10_lo)
                         (exponent_den ln10_lo)) / IZR scale)
             * (IZR cd * IZR scale))
      with (IZR cn * (IZR scale
                      + IZR (exp_floor n (exponent_num a ln10_lo)
                               (exponent_den ln10_lo))))
      by (field; lra).
    lra.
Qed.

Lemma factor_gt_check_sound (n : nat) (m a cn cd : Z) :
  factor_gt_check n m a cn cd = true ->
  IZR cn / IZR cd < responseTimeLossFactor (IZR m).
Proof.
  unfold factor_gt_check. intros H.
  repeat (apply andb_prop in H; destruct H as [H ?]).
  rename H into Hm, H0 into Hchk, H1 into Hfl, H2 into Hb2, H3 into Hln,
         H4 into Hb1, H5 into Ha, H6 into Hcd.
  apply Z.ltb_lt in Hm, Hcd, Hln, Ha, Hfl. apply Z.leb_le in Hchk.
  assert (HcdR : 0 < IZR cd) by now apply IZR_lt.
  assert (HaR : 0 < IZR a) by now apply IZR_lt.
  pose proof scale_pos as HS.
  pose proof ln10_certified as [_ HL].
  pose proof ln10_pos as H10.
  assert (HL0 : 0 < IZR ln10_hi) by (apply IZR_lt; reflexivity).
  assert (HD0 : 0 < IZR digits) by (apply IZR_lt; reflexivity).
  assert (Hlow : IZR a / IZR digits < ln (IZR (m + 1))).
  { apply (ln_int_above n a digits (m + 1)); [reflexivity | lia | exact Hb1
                                               | exact Hln]. }
  assert (HT : IZR a / IZR ln10_hi < timeLog (IZR m)).
  { unfold timeLog, log10. rewrite <- (plus_IZR m 1).
    apply Rmult_lt_reg_r with (ln 10); [exact H10|].
    replace (ln (IZR (m + 1)) / ln 10 * ln 10) with (ln (IZR (m + 1)))
      by (field; lra).
    assert (Hq : IZR a / IZR ln10_hi * (IZR ln10_hi / IZR digits)
                 = IZR a / IZR digits) by (field; lra).
    assert (Hx : 0 < IZR a / IZR ln10_hi)
      by (apply Rdiv_lt_0_compat; lra).
    nra. }
  set (fl := exp_floor n (- exponent_num a ln10_hi) (exponent_den ln10_hi)) in *.
  assert (HflR : 0 < IZR fl) by now apply IZR_lt.
  apply factor_gt_real
    with (T := IZR a / IZR ln10_hi) (F := IZR fl / IZR scale).
  - exact HT.
  - apply Rdiv_lt_0_compat; lra.
  - replace (k * (IZR a / IZR ln10_hi - midpoint))
      with (IZR (- exponent_num a ln10_hi) / IZR (exponent_den ln10_hi)).
    + apply exp_floor_sound; [reflexivity | exact Hb2].
    + rewrite opp_IZR.
      replace (- IZR (exponent_num a ln10_hi) / IZR (exponent_den ln10_hi))
        with (- (IZR (exponent_num a ln10_hi) / IZR (exponent_den ln10_hi)))
        by (unfold Rdiv; ring).
      rewrite exponent_value by reflexivity. ring.
  - apply IZR_le in Hchk. rewrite !mult_IZR, plus_IZR in Hchk.
    apply Rmult_le_reg_r with (IZR cd * IZR scale); [nra|].
    replace (IZR cn / IZR cd * (IZR fl / IZR scale + 1)
             * (IZR cd * IZR scale))
      with (IZR cn * (IZR fl + IZR scale)) by (field; lra).
    replace (IZR fl / IZR scale * (IZR cd * IZR scale))
      with (IZR cd * IZR fl) by (field; lra).
    exact Hchk.
Qed.

End CertificateFacts.

(** * Where the cascades switch, in attempts and in minutes *)

Section Thresholds.

Import Engine Enclosure Certificate.

Lemma ln2_upper : ln 2 < 0.6932.
Proof. apply (ln_int_below 30 6932 10000 2); vm_compute; reflexivity. Qed.

Lemma ln3_lower : 1.0986 < ln 3.
Proof. apply (ln_int_above 30 10986 10000 3); vm_compute; reflexivity. Qed.

Lemma ln5_upper : ln 5 < 1.6095.
Proof. apply (ln_int_below 30 16095 10000 5); vm_compute; reflexivity. Qed.

Lemma ln6_lower : 1.7917 < ln 6.
Proof. apply (ln_int_above 30 17917 10000 6); vm_compute; reflexivity. Qed.

Lemma followUpLossFactor_below_10 (x : R) :
  0 <= x <= 10 -> followUpLossFactor x = 1 - ln (x + 1) / ln 11.
Proof.
  intros [H0 H10]. unfold followUpLossFactor, rawLossPercentage, safeFollowUps.
  rewrite Rmin_left by exact H10.
  apply Rmax_right.
  pose proof ln11_pos as H11.
  assert (ln (x + 1) <= ln 11) by (apply ln_nondecreasing; lra).
  assert (ln (x + 1) / ln 11 <= 1).
  { apply Rmult_le_reg_r with (ln 11); [exact H11|].
    replace (ln (x + 1) / ln 11 * ln 11) with (ln (x + 1)) by (field; lra).
    lra. }
  lra.
Qed.

Lemma followUpLossFactor_marks :
  0.60 < followUpLossFactor 1
  /\ followUpLossFactor 2 < 0.60
  /\ 0.30 < followUpLossFactor 4
  /\ followUpLossFactor 5 < 0.30.
Proof.
  pose proof ln11_enclosure as [H11l H11h].
  pose proof ln2_upper. pose proof ln3_lower.
  pose proof ln5_upper. pose proof ln6_lower.
  rewrite !followUpLossFactor_below_10 by lra.
  replace (1 + 1) with 2 by ring. replace (2 + 1) with 3 by ring.
  replace (4 + 1) with 5 by ring. replace (5 + 1) with 6 by ring.
  assert (Hdiv : forall a c : R, (a < c * ln 11 -> a / ln 11 < c)
                                 /\ (c * ln 11 < a -> c < a / ln 11)).
  { intros a c. split; intros Hac;
      apply Rmult_lt_reg_r with (ln 11); try lra;
      replace (a / ln 11 * ln 11) with a by (field; lra); lra. }
  pose proof (proj1 (Hdiv (ln 2) 0.4)).
  pose proof (proj2 (Hdiv (ln 3) 0.4)).
  pose proof (proj1 (Hdiv (ln 5) 0.7)).
  pose proof (proj2 (Hdiv (ln 6) 0.7)).
  repeat split; lra.
Qed.

(** X7: in whole attempts the follow-up cascade switches at 2 and at 5: up to
    1 attempt is CRITICAL, 2 to 4 attempts are WARNING, 5 and more are
    ADEQUATE. *)
Theorem followup_status_by_attempts (l c t r : R) (n : nat) :
  followUpStatus (result (mkInputs l c t (INR n) r))
  = if (n <=? 1)%nat then CRITICAL
    else if (n <=? 4)%nat then WARNING
    else ADEQUATE.
Proof.
  cbn [followUpStatus result followUps].
  destruct followUpLossFactor_marks as (H1 & H2 & H4 & H5).
  pose proof (pos_INR n) as Hn.
  assert (Hmono : forall a b : R, 0 <= a -> a <= b ->
                     followUpLossFactor b <= followUpLossFactor a)
    by exact followUpLossFactor_antitone.
  unfold followUpStatusOf.
  destruct (Nat.leb_spec n 1) as [Hle | Hgt].
  - assert (Hx : INR n <= 1).
    { replace 1 with (INR 1) by reflexivity. now apply le_INR. }
    pose proof (Hmono (INR n) 1 Hn Hx).
    destruct (Rgt_dec _ _); [reflexivity | lra].
  - assert (Hx : 2 <= INR n).
    { replace 2 with (INR 2) by (simpl; lra). apply le_INR. lia. }
    pose proof (Hmono 2 (INR n) ltac:(lra) Hx).
    destruct (Rgt_dec _ _); [lra|].
    destruct (Nat.leb_spec n 4) as [Hle4 | Hgt4].
    + assert (Hy : INR n <= 4).
      { replace 4 with (INR 4) by (simpl; lra). now apply le_INR. }
      pose proof (Hmono (INR n) 4 Hn Hy).
      destruct (Rge_dec _ _); [reflexivity | lra].
    + assert (Hy : 5 <= INR n).
      { replace 5 with (INR 5) by (simpl; lra). apply le_INR. lia. }
      pose proof (Hmono 5 (INR n) ltac:(lra) Hy).
      destruct (Rge_dec _ _); [lra | reflexivity].
Qed.

Lemma responseTimeLossFactor_at_0 : 0.0115 < responseTimeLossFactor 0.
Proof.
  unfold responseTimeLossFactor, timeLog, log10.
  replace (0 + 1) with 1 by ring. rewrite ln_1.
  replace (- k * (0 / ln 10 - midpoint)) with (IZR 445 / IZR 100)
    by (unfold k, midpoint, Rdiv; rewrite Rmult_0_l; lra).
  assert (He : exp (IZR 445 / IZR 100) < IZR 8563 / IZR 100)
    by (apply (exp_below 45); vm_compute; reflexivity).
  pose proof (exp_pos (IZR 445 / IZR 100)) as Hp.
  apply Rmult_lt_reg_r with (1 + exp (IZR 445 / IZR 100)); [lra|].
  replace (1 / (1 + exp (IZR 445 / IZR 100)) * (1 + exp (IZR 445 / IZR 100)))
    with 1 by (field; lra).
  lra.
Qed.

Lemma responseTimeLossFactor_marks :
  responseTimeLossFactor 5 < 0.15
  /\ responseTimeLossFactor 11 < 0.15 < responseTimeLossFactor 12
  /\ responseTimeLossFactor 30 < 0.35
  /\ responseTimeLossFactor 33 < 0.35 < responseTimeLossFactor 34
  /\ responseTimeLossFactor 86 < 0.60 < responseTimeLossFactor 87
  /\ responseTimeLossFactor 180 < 0.768
  /\ responseTimeLossFactor 296 < 0.85 < responseTimeLossFactor 297.
Proof.
  assert (H5 := factor_lt_check_sound 45 5 179175947 15 100
            ltac:(vm_compute; reflexivity)).
  assert (H11 := factor_lt_check_sound 45 11 248490665 15 100
            ltac:(vm_compute; reflexivity)).
  assert (H12 := factor_gt_check_sound 45 12 256494935 15 100
            ltac:(vm_compute; reflexivity)).
  assert (H30 := factor_lt_check_sound 45 30 343398721 35 100
            ltac:(vm_compute; reflexivity)).
  assert (H33 := factor_lt_check_sound 45 33 352636053 35 100
            ltac:(vm_compute; reflexivity)).
  assert (H34 := factor_gt_check_sound 45 34 355534806 35 100
            ltac:(vm_compute; reflexivity)).
  assert (H86 := factor_lt_check_sound 45 86 446590812 60 100
            ltac:(vm_compute; reflexivity)).
  assert (H87 := factor_gt_check_sound 45 87 447733681 60 100
            ltac:(vm_compute; reflexivity)).
  assert (H180 := factor_lt_check_sound 45 180 519849704 768 1000
            ltac:(vm_compute; reflexivity)).
  assert (H296 := factor_lt_check_sound 45 296 569373214 85 100
            ltac:(vm_compute; reflexivity)).
  assert (H297 := factor_gt_check_sound 45 297 569709348 85 100
            ltac:(vm_compute; reflexivity)).
  repeat split; lra.
Qed.

End Thresholds.

Section Responses.

Import Engine.

(** X8: however fast the answer, the response factor stays above 0.0115, so
    some response loss is always charged; up to the slider's maximum of 180
    minutes it stays below 0.768. *)
Theorem response_factor_range (i : Inputs) :
  0 <= responseTime i ->
  0.0115 < responseFactor (result i)
  /\ (responseTime i <= 180 -> responseFactor (result i) < 0.768).
Proof.
  intros Hr. cbn [responseFactor result]. split.
  - eapply Rlt_le_trans; [exact responseTimeLossFactor_at_0|].
    apply responseTimeLossFactor_monotone; lra.
  - intros H180.
    eapply Rle_lt_trans;
      [apply (responseTimeLossFactor_monotone (responseTime i) 180); lra|].
    apply responseTimeLossFactor_marks.
Qed.

Lemma response_factor_range_witness :
  0 <= responseTime defaults /\ 0.0115 < responseFactor (result defaults).
Proof.
  assert (H : 0 <= responseTime defaults) by (simpl; lra).
  split; [exact H|].
  apply (response_factor_range defaults H).
Defined.

(** X9: in whole minutes the earlier revision's cascade on the factor switches
    at 12, 34, 87 and 297 minutes. *)
Theorem legacy_status_by_minutes (n : nat) :
  Legacy.responseStatusOf (responseTimeLossFactor (INR n))
  = if (n <=? 11)%nat then EXCELLENT
    else if (n <=? 33)%nat then GOOD
    else if (n <=? 86)%nat then IMPROVE
    else if (n <=? 296)%nat then WARNING
    else CRITICAL.
Proof.
  destruct responseTimeLossFactor_marks
    as (_ & [H11 H12] & _ & [H33 H34] & [H86 H87] & _ & [H296 H297]).
  pose proof (pos_INR n) as Hn.
  assert (Hup : forall b : nat, (n <= b)%nat ->
                  responseTimeLossFactor (INR n)
                  <= responseTimeLossFactor (INR b)).
  { intros b Hb. apply responseTimeLossFactor_monotone;
      [exact Hn | now apply le_INR]. }
  assert (Hdown : forall b : nat, (b <= n)%nat ->
                    responseTimeLossFactor (INR b)
                    <= responseTimeLossFactor (INR n)).
  { intros b Hb. apply responseTimeLossFactor_monotone;
      [apply pos_INR | now apply le_INR]. }
  assert (E11 : INR 11 = 11) by (rewrite INR_IZR_INZ; reflexivity).
  assert (E12 : INR 12 = 12) by (rewrite INR_IZR_INZ; reflexivity).
  assert (E33 : INR 33 = 33) by (rewrite INR_IZR_INZ; reflexivity).
  assert (E34 : INR 34 = 34) by (rewrite INR_IZR_INZ; reflexivity).
  assert (E86 : INR 86 = 86) by (rewrite INR_IZR_INZ; reflexivity).
  assert (E87 : INR 87 = 87) by (rewrite INR_IZR_INZ; reflexivity).
  assert (E296 : INR 296 = 296) by (rewrite INR_IZR_INZ; reflexivity).
  assert (E297 : INR 297 = 297) by (rewrite INR_IZR_INZ; reflexivity).
  unfold Legacy.responseStatusOf.
  destruct (Nat.leb_spec n 11) as [L11 | G11].
  { pose proof (Hup 11%nat L11) as H. rewrite E11 in H.
    destruct (Rlt_dec _ 0.15); [reflexivity | lra]. }
  pose proof (Hdown 12%nat G11) as D12. rewrite E12 in D12.
  destruct (Rlt_dec _ 0.15); [lra|].
  destruct (Nat.leb_spec n 33) as [L33 | G33].
  { pose proof (Hup 33%nat L33) as H. rewrite E33 in H.
    destruct (Rlt_dec _ 0.35); [reflexivity | lra]. }
  pose proof (Hdown 34%nat G33) as D34. rewrite E34 in D34.
  destruct (Rlt_dec _ 0.35); [lra|].
  destruct (Nat.leb_spec n 86) as [L86 | G86].
  { pose proof (Hup 86%nat L86) as H. rewrite E86 in H.
    destruct (Rlt_dec _ 0.60); [reflexivity | lra]. }
  pose proof (Hdown 87%nat G86) as D87. rewrite E87 in D87.
  destruct (Rlt_dec _ 0.60); [lra|].
  destruct (Nat.leb_spec n 296) as [L296 | G296].
  { pose proof (Hup 296%nat L296) as H. rewrite E296 in H.
    destruct (Rlt_dec _ 0.85); [reflexivity | lra]. }
  pose proof (Hdown 297%nat G296) as D297. rewrite E297 in D297.
  destruct (Rlt_dec _ 0.85); [lra | reflexivity].
Qed.

(** X10: at every response time the cascade on minutes is at least as severe as
    the earlier revision's cascade on the factor. *)
Theorem minutes_cascade_stricter (i : Inputs) :
  0 <= responseTime i ->
  (severity (Legacy.responseStatusOf (responseFactor (result i)))
   <= severity (responseStatus (result i)))%nat.
Proof.
  intros Hr. cbn [responseFactor responseStatus result].
  destruct responseTimeLossFactor_marks as (H5 & _ & H30 & _).
  pose proof responseTimeLossFactor_at_60 as [_ H60].
  assert (Hm : forall b : R, responseTime i <= b ->
                 responseTimeLossFactor (responseTime i)
                 <= responseTimeLossFactor b)
    by (intros b Hb; apply responseTimeLossFactor_monotone; lra).
  unfold responseStatusOf, Legacy.responseStatusOf.
  destruct (Rle_dec (responseTime i) 5) as [L5 | G5].
  { pose proof (Hm 5 L5). destruct (Rlt_dec _ 0.15); [apply le_n | lra]. }
  destruct (Rle_dec (responseTime i) 30) as [L30 | G30].
  { pose proof (Hm 30 L30).
    destruct (Rlt_dec _ 0.15); [simpl; lia|].
    destruct (Rlt_dec _ 0.35); [apply le_n | lra]. }
  destruct (Rle_dec (responseTime i) 60) as [L60 | G60].
  { pose proof (Hm 60 L60).
    repeat (destruct (Rlt_dec _ _); [simpl; lia|]). lra. }
  repeat (destruct (Rlt_dec _ _); [simpl; lia|]). simpl. lia.
Qed.

Lemma minutes_cascade_stricter_witness :
  0 <= responseTime defaults
  /\ (severity (Legacy.responseStatusOf (responseFactor (result defaults)))
      <= severity (responseStatus (result defaults)))%nat.
Proof.
  assert (H : 0 <= responseTime defaults) by (simpl; lra).
  split; [exact H|].
  apply (minutes_cascade_stricter defaults H).
Defined.

End Responses.

(** * The chart series *)

Section Series.

Import Engine Chart View.

Lemma pieData_cases (r : CalculationResult) :
  pieData r
  = (if Rgt_dec (followUpLossAnnual r) 0
     then [ {| name := "Perda por Follow-up"; value := followUpLossAnnual r;
               color := ORANGE_LIGHT |} ]
     else [])
    ++ (if Rgt_dec (responseLossAnnual r) 0 then [responseSlice r] else []).
Proof.
  unfold pieData, positive, responseSlice. cbn [filter value].
  destruct (Rgt_dec (followUpLossAnnual r) 0);
    destruct (Rgt_dec (responseLossAnnual r) 0); reflexivity.
Qed.

(** X11: the charts row is rendered only when the total annual loss is
    positive; the composition series then has at least one slice, and a
    slice it holds always has a positive value. *)
Theorem pie_shown_nonempty (i : Inputs) :
  0 < totalLossAnnual (result i) ->
  pieData (result i) <> []
  /\ Forall (fun d => 0 < value d) (pieData (result i)).
Proof.
  intros Htot. rewrite totalLossAnnual_spec in Htot.
  rewrite pieData_cases. unfold responseSlice.
  destruct (Rgt_dec (followUpLossAnnual (result i)) 0) as [Hf | Hf];
    destruct (Rgt_dec (responseLossAnnual (result i)) 0) as [Hr | Hr];
    cbn [app]; try lra;
    (split; [discriminate
            | repeat (apply Forall_cons; [cbn [value]; lra|]);
              apply Forall_nil]).
Qed.

Lemma pie_shown_nonempty_witness :
  0 < totalLossAnnual (result defaults) /\ pieData (result defaults) <> [].
Proof.
  assert (H : 0 < totalLossAnnual (result defaults)).
  { pose proof defaults_enclosures as (_ & _ & _ & _ & _ & _ & H & _).
    cbn zeta in H.
    replace (totalLossAnnual (result defaults))
      with (totalLossRevenue (result defaults) * 12) by reflexivity.
    lra. }
  split; [exact H|].
  apply (pie_shown_nonempty defaults H).
Defined.

(** X12: on the form's domain the slices of the composition series add up to
    the total annual loss shown in the middle of the ring, and the series
    is empty exactly when that total is 0. *)
Theorem pie_adds_up (i : Inputs) :
  inDomain i ->
  fold_right Rplus 0 (map value (pieData (result i)))
  = totalLossAnnual (result i)
  /\ (pieData (result i) = [] <-> totalLossAnnual (result i) = 0).
Proof.
  intros Hd.
  destruct (losses_nonneg i Hd) as (Hf & Hr).
  rewrite totalLossAnnual_spec, pieData_cases. unfold responseSlice.
  destruct (Rgt_dec (followUpLossAnnual (result i)) 0) as [Hfp | Hfp];
    destruct (Rgt_dec (responseLossAnnual (result i)) 0) as [Hrp | Hrp];
    cbn [app map fold_right value];
    (split; [lra | split; [discriminate || lra | reflexivity || lra]]).
Qed.

Lemma pie_adds_up_witness :
  inDomain defaults
  /\ fold_right Rplus 0 (map value (pieData (result defaults)))
     = totalLossAnnual (result defaults).
Proof.
  split; [exact defaults_inDomain|].
  apply (pie_adds_up defaults defaults_inDomain).
Defined.

(** X13: on the form's domain no bar of the sales-potential chart is negative
    and the three bars add up to the ticket times the potential sales. *)
Theorem bars_add_up (i : Inputs) :
  inDomain i ->
  Forall (fun b => 0 <= barValue b) (barData (result i))
  /\ fold_right Rplus 0 (map barValue (barData (result i)))
     = ticket i * (currentSales (result i) + totalLossSales (result i)).
Proof.
  intros Hd.
  pose proof (currentSales_nonneg i Hd) as Hcs.
  destruct (losses_nonneg_monthly i Hd) as (Hf & Hr).
  assert (Ht : 0 <= ticket i) by (destruct Hd as (_ & _ & Ht & _); exact Ht).
  split.
  - unfold barData.
    apply Forall_cons; [|apply Forall_cons; [|apply Forall_cons;
                                               [|apply Forall_nil]]];
      cbn [barValue]; try assumption.
    change (currentRevenue (result i))
      with (currentSales (result i) * ticket i).
    now apply Rmult_le_pos.
  - unfold barData. cbn [map fold_right barValue].
    cbn [currentRevenue followUpLossRevenue responseLossRevenue currentSales
         totalLossSales result]. ring.
Qed.

Lemma bars_add_up_witness :
  inDomain defaults
  /\ Forall (fun b => 0 <= barValue b) (barData (result defaults)).
Proof.
  split; [exact defaults_inDomain|].
  apply (bars_add_up defaults defaults_inDomain).
Defined.

End Series.

(** * The input widgets and the state they feed *)

Section Inputs.

Import Engine Widgets View.

(** X14: for a slider with [min < max] the fill is a percentage: it stays in
    [0, 100], is the plain proportion inside the range, sticks to 0 below
    [min] and to 100 above [max], and never decreases with the value. *)
Theorem safePercentage_clamped (value min max : R) :
  min < max ->
  0 <= safePercentage value min max <= 100
  /\ (min <= value <= max ->
      safePercentage value min max = percentage value min max)
  /\ (value <= min -> safePercentage value min max = 0)
  /\ (max <= value -> safePercentage value min max = 100)
  /\ forall value' : R,
       value <= value' ->
       safePercentage value min max <= safePercentage value' min max.
Proof.
  intros Hmm.
  assert (Hw : 0 < max - min) by lra.
  assert (Hp : forall v : R, percentage v min max * (max - min)
                             = (v - min) * 100).
  { intros v. unfold percentage. field. lra. }
  assert (Hsign : forall v : R,
             (v <= min -> percentage v min max <= 0)
             /\ (min <= v -> 0 <= percentage v min max)
             /\ (v <= max -> percentage v min max <= 100)
             /\ (max <= v -> 100 <= percentage v min max)).
  { intros v. pose proof (Hp v). repeat split; intros Hv; nra. }
  assert (Hmono : forall v w : R, v <= w ->
                    percentage v min max <= percentage w min max).
  { intros v w Hvw. pose proof (Hp v). pose proof (Hp w). nra. }
  unfold safePercentage.
  split; [|split; [|split; [|split]]].
  - split.
    + apply Rmin_glb; [lra | apply Rmax_l].
    + apply Rmin_l.
  - intros [Hlo Hhi]. destruct (Hsign value) as (_ & H0 & H100 & _).
    rewrite Rmax_right by auto. apply Rmin_right. auto.
  - intros Hlo. destruct (Hsign value) as (H0 & _).
    rewrite Rmax_left by auto. apply Rmin_right. lra.
  - intros Hhi. destruct (Hsign value) as (_ & _ & _ & H100).
    rewrite Rmax_right by (specialize (H100 Hhi); lra).
    apply Rmin_left. auto.
  - intros w Hvw. apply Rle_min_compat_l, Rle_max_compat_l. now apply Hmono.
Qed.

Lemma safePercentage_clamped_witness :
  0 < 100 /\ safePercentage 10 0 100 = percentage 10 0 100.
Proof.
  assert (H : 0 < 100) by lra.
  split; [exact H|].
  apply (safePercentage_clamped 10 0 100 H). lra.
Defined.

(** X15: a typed number is capped at [max] and nothing else: the result never
    exceeds [max], capping twice changes nothing, and a number at or below
    [max] goes through unchanged even when it is below the widget's [min]. *)
Theorem handleInputChange_caps (min max val : R) :
  handleInputChange max val = Rmin val max
  /\ handleInputChange max val <= max
  /\ handleInputChange max (handleInputChange max val)
     = handleInputChange max val
  /\ (val <= max -> handleInputChange max val = val)
  /\ (val < min <= max -> handleInputChange max val < min).
Proof.
  unfold handleInputChange.
  destruct (Rgt_dec val max) as [Hgt | Hle].
  - rewrite Rmin_right by lra.
    destruct (Rgt_dec max max); repeat split; intros; lra.
  - rewrite Rmin_left by lra.
    destruct (Rgt_dec val max); repeat split; intros; lra.
Qed.

Lemma Field_eq_dec (f g : Field) : {f = g} + {f <> g}.
Proof. decide equality. Defined.

Lemma getField_setField (f g : Field) (v : R) (i : Inputs) :
  getField g (setField f v i)
  = if Field_eq_dec f g then v else getField g i.
Proof. destruct f, g; reflexivity. Qed.

Lemma defaults_within (f : Field) :
  fieldMin f <= getField f defaults <= fieldMax f.
Proof. destruct f; simpl; unfold MAX_MINUTES; lra. Qed.

Lemma fieldMin_nonneg (f : Field) : 0 <= fieldMin f.
Proof. destruct f; simpl; lra. Qed.

Lemma fold_step_invariant (P : Inputs -> Prop) (Q : Event -> Prop) :
  P defaults ->
  (forall i e, P i -> Q e -> P (step i e)) ->
  forall events i, P i -> Forall Q events -> P (fold_left step events i).
Proof.
  intros Hdef Hstep events.
  induction events as [|e events IH]; intros i Hi Hall; simpl.
  - exact Hi.
  - inversion Hall as [|? ? He Hrest]; subst.
    apply IH; [now apply Hstep | exact Hrest].
Qed.

(** X16: whatever the user drags, types or resets, no input ever exceeds the
    maximum of its widget. *)
Theorem state_never_exceeds_max (events : list Event) (f : Field) :
  Forall admissible events ->
  getField f (run events) <= fieldMax f.
Proof.
  intros Hall. revert f. unfold run.
  apply (fold_step_invariant
           (fun i => forall f, getField f i <= fieldMax f) admissible);
    [intros f; apply defaults_within | | intros f; apply defaults_within
     | exact Hall].
  intros i e Hi He g. destruct e as [f v | f v |]; cbn [step].
  - rewrite getField_setField. destruct (Field_eq_dec f g) as [E | E]; [|apply Hi].
    subst g. apply He.
  - rewrite getField_setField. destruct (Field_eq_dec f g) as [E | E]; [|apply Hi].
    subst g.
    unfold handleInputChange. destruct (Rgt_dec v (fieldMax f)); lra.
  - apply defaults_within.
Qed.

Lemma state_never_exceeds_max_witness :
  Forall admissible [Typed Conversion 250; Slide Leads 500]
  /\ conversion (run [Typed Conversion 250; Slide Leads 500]) <= 100.
Proof.
  assert (H : Forall admissible [Typed Conversion 250; Slide Leads 500]).
  { repeat (apply Forall_cons; [simpl; try lra; exact I|]). apply Forall_nil. }
  split; [exact H|].
  apply (state_never_exceeds_max [Typed Conversion 250; Slide Leads 500]
           Conversion H).
Defined.

(** X17: as long as no negative number is typed, the state stays on the form's
    domain and the score shown stays a percentage. *)
Theorem score_stays_percentage (events : list Event) :
  Forall admissible events -> Forall nonnegative events ->
  inDomain (run events)
  /\ 0 <= efficiency (result (run events)) <= 100.
Proof.
  intros Hadm Hnn.
  assert (Hinv : forall f, 0 <= getField f (run events) <= fieldMax f).
  { unfold run.
    apply (fold_step_invariant
             (fun i => forall f, 0 <= getField f i <= fieldMax f)
             (fun e => admissible e /\ nonnegative e)).
    - intros f. pose proof (defaults_within f). pose proof (fieldMin_nonneg f).
      lra.
    - intros i e Hi [Ha Hn] g.
      destruct e as [f v | f v |]; cbn [step].
      + rewrite getField_setField. destruct (Field_eq_dec f g) as [E | E]; [|apply Hi].
        subst g.
        cbn [admissible] in Ha. pose proof (fieldMin_nonneg f). lra.
      + rewrite getField_setField. destruct (Field_eq_dec f g) as [E | E]; [|apply Hi].
        subst g. cbn [nonnegative] in Hn.
        pose proof (defaults_within f). pose proof (fieldMin_nonneg f).
        unfold handleInputChange. destruct (Rgt_dec v (fieldMax f)); lra.
      + pose proof (defaults_within g). pose proof (fieldMin_nonneg g). lra.
    - intros f. pose proof (defaults_within f). pose proof (fieldMin_nonneg f).
      lra.
    - apply Forall_forall. intros e He. split.
      + now apply (proj1 (Forall_forall _ _) Hadm).
      + now apply (proj1 (Forall_forall _ _) Hnn). }
  assert (Hd : inDomain (run events)).
  { unfold inDomain.
    pose proof (Hinv Leads). pose proof (Hinv Conversion).
    pose proof (Hinv Ticket). pose proof (Hinv FollowUps).
    pose proof (Hinv ResponseTime). cbn [getField fieldMax] in *. lra. }
  split; [exact Hd | now apply efficiency_in_range].
Qed.

Lemma score_stays_percentage_witness :
  Forall admissible [Typed Conversion 250; Typed ResponseTime 0]
  /\ Forall nonnegative [Typed Conversion 250; Typed ResponseTime 0]
  /\ 0 <= efficiency
            (result (run [Typed Conversion 250; Typed ResponseTime 0]))
     <= 100.
Proof.
  assert (Ha : Forall admissible
                 [Typed Conversion 250; Typed ResponseTime 0]).
  { repeat (apply Forall_cons; [exact I|]). apply Forall_nil. }
  assert (Hn : Forall nonnegative
                 [Typed Conversion 250; Typed ResponseTime 0]).
  { repeat (apply Forall_cons; [simpl; lra|]). apply Forall_nil. }
  split; [exact Ha|]. split; [exact Hn|].
  apply (score_stays_percentage _ Ha Hn).
Defined.

(** X18: for a whole number of minutes from 1 to 180 the thumb of the time
    slider sits in the zone whose colour matches the response status:
    green for EXCELLENT, yellow for GOOD, orange for WARNING and red for
    CRITICAL; the first three markers stand where those zones end. *)
Theorem thumb_in_matching_zone (n : Z) :
  (1 <= n <= 180)%Z ->
  let p := timeSafePercentage (IZR n) in
  (p < zoneEnd 1 <-> responseStatusOf (IZR n) = EXCELLENT)
  /\ (zoneEnd 1 < p < zoneEnd 2 <-> responseStatusOf (IZR n) = GOOD)
  /\ (zoneEnd 2 < p < zoneEnd 3 <-> responseStatusOf (IZR n) = WARNING)
  /\ (zoneEnd 3 < p <-> responseStatusOf (IZR n) = CRITICAL)
  /\ map markerLeft markers = [zoneEnd 1; zoneEnd 2; zoneEnd 3; 100].
Proof.
  intros [H1 H180] p.
  assert (Hlo : 1 <= IZR n) by now apply IZR_le.
  assert (Hhi : IZR n <= 180) by now apply IZR_le.
  assert (Hp : p = (IZR n - 1) / 179 * 100).
  { unfold p, timeSafePercentage, timePercentage, MAX_MINUTES.
    replace (180 - 1) with 179 by ring.
    assert (0 <= (IZR n - 1) / 179 * 100 <= 100) by lra.
    rewrite Rmax_right by lra. apply Rmin_right. lra. }
  assert (Hz1 : zoneEnd 1 = 500 / 180)
    by (unfold zoneEnd, zoneWidths, MAX_MINUTES; simpl; lra).
  assert (Hz2 : zoneEnd 2 = 3000 / 180)
    by (unfold zoneEnd, zoneWidths, MAX_MINUTES; simpl; lra).
  assert (Hz3 : zoneEnd 3 = 6000 / 180)
    by (unfold zoneEnd, zoneWidths, MAX_MINUTES; simpl; lra).
  assert (Hint : forall b : Z, (n <= b)%Z \/ (b + 1 <= n)%Z) by (intros b; lia).
  assert (Hcase : forall b : Z,
             IZR n <= IZR b \/ IZR b + 1 <= IZR n).
  { intros b. destruct (Hint b) as [H | H]; [left | right].
    - now apply IZR_le.
    - rewrite <- (plus_IZR b 1). now apply IZR_le. }
  assert (Hmark : map markerLeft markers
                  = [zoneEnd 1; zoneEnd 2; zoneEnd 3; 100]).
  { rewrite Hz1, Hz2, Hz3. unfold markerLeft, markers, MAX_MINUTES.
    cbn [map val].
    f_equal; [lra | f_equal; [lra | f_equal; [lra | f_equal; lra]]]. }
  rewrite Hp, Hz1, Hz2, Hz3. unfold responseStatusOf.
  destruct (Hcase 5%Z) as [L5 | G5];
    destruct (Hcase 30%Z) as [L30 | G30];
    destruct (Hcase 60%Z) as [L60 | G60]; try lra;
    repeat destruct (Rle_dec _ _); try lra;
    (split; [|split; [|split; [|split]]];
     [| | | | rewrite <- Hz1, <- Hz2, <- Hz3; exact Hmark]);
    (split; [intros; try reflexivity; try lra
            | intros; try discriminate; try lra]).
Qed.

Lemma thumb_in_matching_zone_witness :
  (1 <= 30 <= 180)%Z
  /\ (zoneEnd 1 < timeSafePercentage (IZR 30) < zoneEnd 2
      <-> responseStatusOf (IZR 30) = GOOD).
Proof.
  assert (H : (1 <= 30 <= 180)%Z) by lia.
  split; [exact H|].
  apply (thumb_in_matching_zone 30 H).
Defined.

End Inputs.

(** * Formatting and status styles *)

Section Display.

Import Format View.

#[local] Open Scope string_scope.

Lemma string_of_uint_numeric (d : Decimal.uint) :
  forall c : ascii,
    In c (list_ascii_of_string (NilEmpty.string_of_uint d)) ->
    numeric c = true.
Proof.
  induction d; simpl; intros c Hc; try contradiction;
    (destruct Hc as [<- | Hc]; [reflexivity | now apply IHd]).
Qed.

Lemma show_numeric (n : Z) :
  forall c : ascii, In c (list_ascii_of_string (show n)) -> numeric c = true.
Proof.
  intros c. unfold show, NilZero.string_of_int, NilZero.string_of_uint.
  assert (Hzero : In c (list_ascii_of_string "0") -> numeric c = true)
    by (simpl; intros [<- | []]; reflexivity).
  destruct (Z.to_int n) as [d | d]; destruct d; simpl;
    intros Hc;
    repeat match goal with
           | H : _ \/ _ |- _ => destruct H as [<- | H]; [reflexivity|]
           | H : False |- _ => contradiction
           end;
    now apply (string_of_uint_numeric d).
Qed.

Lemma show_injective (a b : Z) : show a = show b -> a = b.
Proof.
  unfold show. intros H.
  assert (Hnorm : forall z : Z,
             NilZero.int_of_string (NilZero.string_of_int (Z.to_int z))
             = Some (Z.to_int z)).
  { intros z. apply NilZero.isi; destruct z; simpl; try discriminate;
      intros [= E]; now apply (DecimalPos.Unsigned.to_uint_nonnil p). }
  pose proof (Hnorm a) as Ha. rewrite H, Hnorm in Ha.
  injection Ha as Ha.
  rewrite <- (DecimalZ.of_to a), <- (DecimalZ.of_to b). now rewrite Ha.
Qed.

(** A run of numeric characters followed by something that does not start
    with one can be cut in one way only. *)
Lemma numeric_prefix_unique (s1 : string) :
  forall s2 t1 t2 : string,
    (forall c, In c (list_ascii_of_string s1) -> numeric c = true) ->
    (forall c, In c (list_ascii_of_string s2) -> numeric c = true) ->
    (forall c t, t1 = String c t -> numeric c = false) ->
    (forall c t, t2 = String c t -> numeric c = false) ->
    s1 ++ t1 = s2 ++ t2 -> s1 = s2 /\ t1 = t2.
Proof.
  induction s1 as [|c1 s1 IH]; intros s2 t1 t2 H1 H2 Ht1 Ht2 Heq.
  - destruct s2 as [|c2 s2]; [now split|].
    simpl in Heq. exfalso.
    pose proof (Ht1 c2 _ Heq) as Hc.
    rewrite (H2 c2) in Hc by (simpl; now left). discriminate.
  - destruct s2 as [|c2 s2].
    + simpl in Heq. exfalso.
      pose proof (Ht2 c1 _ (eq_sym Heq)) as Hc.
      rewrite (H1 c1) in Hc by (simpl; now left). discriminate.
    + simpl in Heq. injection Heq as Hc Hrest. subst c2.
      destruct (IH s2 t1 t2) as [Hs Ht]; try assumption.
      * intros c Hc. apply H1. simpl. now right.
      * intros c Hc. apply H2. simpl. now right.
      * split; [now f_equal | exact Ht].
Qed.

Lemma show_prefix_unique (a b : Z) (t1 t2 : string) :
  (forall c t, t1 = String c t -> numeric c = false) ->
  (forall c t, t2 = String c t -> numeric c = false) ->
  show a ++ t1 = show b ++ t2 -> a = b /\ t1 = t2.
Proof.
  intros Ht1 Ht2 Heq.
  destruct (numeric_prefix_unique (show a) (show b) t1 t2
              (show_numeric a) (show_numeric b) Ht1 Ht2 Heq) as [Hs Ht].
  split; [now apply show_injective | exact Ht].
Qed.

(** X19: two different whole numbers of minutes are never shown as the same
    text. *)
Theorem formatTime_injective (m1 m2 : Z) :
  safeInteger m1 -> safeInteger m2 ->
  m1 <> m2 -> formatTime m1 <> formatTime m2.
Proof.
  intros _ _ Hne Hsame. apply Hne. clear Hne. revert Hsame.
  unfold formatTime.
  assert (Hsp : forall c t, " min" = String c t -> numeric c = false)
    by (intros c t [= <- _]; reflexivity).
  assert (Hh : forall s c t, "h" ++ s = String c t -> numeric c = false)
    by (intros s c t [= <- _]; reflexivity).
  assert (Hm : forall c t, "min" = String c t -> numeric c = false)
    by (intros c t [= <- _]; reflexivity).
  pose proof (Z.div_mod m1 60 ltac:(lia)) as D1.
  pose proof (Z.div_mod m2 60 ltac:(lia)) as D2.
  pose proof (Z.mod_pos_bound m1 60 ltac:(lia)) as B1.
  pose proof (Z.mod_pos_bound m2 60 ltac:(lia)) as B2.
  destruct (Z.ltb_spec m1 60) as [L1 | G1];
    destruct (Z.ltb_spec m2 60) as [L2 | G2].
  - intros Heq. now apply (show_prefix_unique m1 m2 " min" " min").
  - destruct (m2 mod 60 >? 0)%Z; intros Heq; exfalso.
    + destruct (show_prefix_unique m1 (m2 / 60) " min"
                  ("h " ++ show (m2 mod 60) ++ "min") Hsp
                  (Hh (" " ++ show (m2 mod 60) ++ "min")) Heq) as [_ Ht].
      discriminate.
    + destruct (show_prefix_unique m1 (m2 / 60) " min" "h" Hsp (Hh "") Heq)
        as [_ Ht].
      discriminate.
  - destruct (m1 mod 60 >? 0)%Z; intros Heq; exfalso.
    + destruct (show_prefix_unique (m1 / 60) m2
                  ("h " ++ show (m1 mod 60) ++ "min") " min"
                  (Hh (" " ++ show (m1 mod 60) ++ "min")) Hsp Heq) as [_ Ht].
      discriminate.
    + destruct (show_prefix_unique (m1 / 60) m2 "h" " min" (Hh "") Hsp Heq)
        as [_ Ht].
      discriminate.
  - destruct (Z.gtb_spec (m1 mod 60) 0) as [P1 | N1];
      destruct (Z.gtb_spec (m2 mod 60) 0) as [P2 | N2]; intros Heq.
    + destruct (show_prefix_unique (m1 / 60) (m2 / 60)
                  ("h " ++ show (m1 mod 60) ++ "min")
                  ("h " ++ show (m2 mod 60) ++ "min")
                  (Hh (" " ++ show (m1 mod 60) ++ "min"))
                  (Hh (" " ++ show (m2 mod 60) ++ "min")) Heq) as [Hq Ht].
      injection Ht as Ht.
      destruct (show_prefix_unique (m1 mod 60) (m2 mod 60) "min" "min"
                  Hm Hm Ht) as [Hr _].
      lia.
    + exfalso.
      destruct (show_prefix_unique (m1 / 60) (m2 / 60)
                  ("h " ++ show (m1 mod 60) ++ "min") "h"
                  (Hh (" " ++ show (m1 mod 60) ++ "min")) (Hh "") Heq)
        as [_ Ht].
      discriminate.
    + exfalso.
      destruct (show_prefix_unique (m1 / 60) (m2 / 60)
                  "h" ("h " ++ show (m2 mod 60) ++ "min")
                  (Hh "") (Hh (" " ++ show (m2 mod 60) ++ "min")) Heq)
        as [_ Ht].
      discriminate.
    + destruct (show_prefix_unique (m1 / 60) (m2 / 60) "h" "h"
                  (Hh "") (Hh "") Heq) as [Hq _].
      lia.
Qed.

Lemma formatTime_injective_witness :
  safeInteger 60 /\ safeInteger 90 /\ (60 <> 90)%Z
  /\ formatTime 60 = "1h" /\ formatTime 90 = "1h 30min"
  /\ formatTime 60 <> formatTime 90.
Proof.
  assert (H60 : safeInteger 60) by (unfold safeInteger; simpl; lia).
  assert (H90 : safeInteger 90) by (unfold safeInteger; simpl; lia).
  assert (Hne : (60 <> 90)%Z) by lia.
  split; [exact H60|]. split; [exact H90|]. split; [exact Hne|].
  split; [reflexivity|]. split; [reflexivity|].
  apply (formatTime_injective 60 90 H60 H90 Hne).
Defined.

(** X20: every status gets a colour other than the fallback grey and a
    non-empty label; different statuses get different labels, while a
    string that is no status gets the grey and the empty label. *)
Theorem status_styles :
  (forall s : Status,
     getStatusColor (literal s) <> "bg-gray-500"
     /\ getStatusLabel (literal s) <> "")
  /\ (forall s1 s2 : Status,
        getStatusLabel (literal s1) = getStatusLabel (literal s2) -> s1 = s2)
  /\ (forall str : string,
        (forall s : Status, str <> literal s) ->
        getStatusColor str = "bg-gray-500" /\ getStatusLabel str = "").
Proof.
  split; [|split].
  - intros s. destruct s; split; discriminate.
  - intros s1 s2. destruct s1, s2; intros H; try reflexivity;
      vm_compute in H; discriminate.
  - intros str Hno. unfold getStatusColor, getStatusLabel.
    pose proof (Hno CRITICAL) as H1. pose proof (Hno WARNING) as H2.
    pose proof (Hno IMPROVE) as H3. pose proof (Hno GOOD) as H4.
    pose proof (Hno ADEQUATE) as H5. pose proof (Hno EXCELLENT) as H6.
    cbn [literal] in *.
    repeat match goal with
           | |- context [String.eqb str ?l] =>
               destruct (String.eqb_spec str l); [congruence|]
           end.
    split; reflexivity.
Qed.

End Display.
